(** * GPACalculator: the resolve / derive / decrypt pipeline of crypto.js

    A shallow embedding of the two scripts of the repository: [crypto.js]
    (the functions [getHash], [getEncryptedFilename], [getKey], [decrypt],
    [fetchFile] and the submit handler) and [crypto-alternative.js] (a second
    submit handler over the same functions).

    The scripts run on the browser platform.  The platform functions they call
    are modelled first, each from its standard: strings as sequences of UTF-16
    code units (ECMA-262), [TextEncoder] / [TextDecoder] (WHATWG Encoding),
    SHA-256 (FIPS 180-4), HMAC and PBKDF2 (RFC 2104, RFC 8018), AES and GCM
    (FIPS 197, NIST SP 800-38D) and the [crypto.subtle] entry points (W3C Web
    Cryptography).  The network is a parameter of the handlers. *)

From Stdlib Require Import NArith String Ascii Bool Arith Lia List.
Import ListNotations.
Open Scope N_scope.

(** ** Bytes and machine words *)

(** An [ArrayBuffer] or [Uint8Array] is the list of its bytes, each a number
    below 256. *)
Definition bytes := list N.

Definition is_byte (b : N) : Prop := b < 256.
Definition all_bytes (l : bytes) : Prop := Forall is_byte l.

(** [ArrayBuffer.prototype.slice(begin, end)] and [slice(begin)] for
    non-negative arguments; both clamp to the length of the buffer. *)
Definition slice (b : bytes) (first last : N) : bytes :=
  firstn (N.to_nat (last - first)) (skipn (N.to_nat first) b).
Definition slice_from (b : bytes) (first : N) : bytes := skipn (N.to_nat first) b.

Definition byteLength (b : bytes) : N := N.of_nat (length b).

Fixpoint xor_bytes (a b : bytes) : bytes :=
  match a, b with
  | x :: a', y :: b' => N.lxor x y :: xor_bytes a' b'
  | _, _ => []
  end.

(** Big-endian bytes of a number, [n] of them, and back. *)
Fixpoint be_bytes (n : nat) (x : N) : bytes :=
  match n with
  | O => []
  | S n' => N.land (N.shiftr x (8 * N.of_nat n')) 0xFF :: be_bytes n' x
  end.

Definition be_value (l : bytes) : N :=
  fold_left (fun acc b => acc * 256 + b) l 0.

(** Cuts a list into chunks of [n] elements; the last chunk may be shorter. *)
Fixpoint chunks_fuel {A} (fuel n : nat) (l : list A) : list (list A) :=
  match fuel with
  | O => []
  | S fuel' =>
      match l with
      | [] => []
      | _ => firstn n l :: chunks_fuel fuel' n (skipn n l)
      end
  end.
Definition chunks {A} (n : nat) (l : list A) : list (list A) :=
  chunks_fuel (length l) n l.

(** ** Strings (ECMA-262) *)

(** A string value is the sequence of its UTF-16 code units. *)
Definition jsstring := list N.

(** The string written with the given ASCII characters. *)
Definition str (s : string) : jsstring :=
  map N_of_ascii (list_ascii_of_string s).

(** [===] on strings and on byte sequences. *)
Fixpoint eqb_list (a b : list N) : bool :=
  match a, b with
  | [], [] => true
  | x :: a', y :: b' => (x =? y) && eqb_list a' b'
  | _, _ => false
  end.

(** White space and line terminators, the code units that
    [String.prototype.trim] removes. *)
Definition isWhiteSpace (u : N) : bool :=
  (u =? 0x9) || (u =? 0xA) || (u =? 0xB) || (u =? 0xC) || (u =? 0xD) ||
  (u =? 0x20) || (u =? 0xA0) || (u =? 0x1680) ||
  ((0x2000 <=? u) && (u <=? 0x200A)) ||
  (u =? 0x2028) || (u =? 0x2029) || (u =? 0x202F) || (u =? 0x205F) ||
  (u =? 0x3000) || (u =? 0xFEFF).

Fixpoint trimStart (s : jsstring) : jsstring :=
  match s with
  | u :: s' => if isWhiteSpace u then trimStart s' else s
  | [] => []
  end.
Definition trimEnd (s : jsstring) : jsstring := rev (trimStart (rev s)).
Definition trim (s : jsstring) : jsstring := trimEnd (trimStart s).

(** [String.prototype.toLowerCase].  The mapping is exact on the ASCII code
    units (capitals go to small letters, the others stay) and on the two
    other code units whose lower case contains an ASCII code unit (U+0130
    and U+212A).  Every other code unit is non-ASCII and has a non-ASCII
    lower case on the platform; it is kept as it is here, which a comparison
    with ASCII text, the only use the scripts make of the result, cannot tell
    from the platform's mapping. *)
Definition lowerUnit (u : N) : jsstring :=
  if (0x41 <=? u) && (u <=? 0x5A) then [u + 32]
  else if u =? 0x130 then [0x69; 0x307]
  else if u =? 0x212A then [0x6B]
  else [u].
Definition toLowerCase (s : jsstring) : jsstring := flat_map lowerUnit s.

(** [String.prototype.toUpperCase], given on ASCII code units: the scripts
    apply it to hexadecimal digits only. *)
Definition upperUnit (u : N) : N :=
  if (0x61 <=? u) && (u <=? 0x7A) then u - 32 else u.
Definition toUpperCase (s : jsstring) : jsstring := map upperUnit s.

Fixpoint startsWith (s prefix : jsstring) {struct prefix} : bool :=
  match prefix with
  | [] => true
  | c :: prefix' =>
      match s with
      | [] => false
      | d :: s' => (d =? c) && startsWith s' prefix'
      end
  end.

Fixpoint includes (s sub : jsstring) : bool :=
  startsWith s sub ||
  match s with
  | [] => false
  | _ :: s' => includes s' sub
  end.

(** [Number.prototype.toString(radix)] on a non-negative integer. *)
Definition digitUnit (d : N) : N := if d <? 10 then 0x30 + d else 0x61 + (d - 10).

Fixpoint digits (fuel : nat) (radix n : N) (acc : jsstring) : jsstring :=
  match fuel with
  | O => acc
  | S fuel' =>
      if n =? 0 then acc
      else digits fuel' radix (n / radix) (digitUnit (n mod radix) :: acc)
  end.

Definition toStringRadix (radix n : N) : jsstring :=
  if n =? 0 then [0x30] else digits (N.to_nat (N.size n)) radix n [].

(** [String.prototype.padStart(targetLength, padString)]. *)
Definition padStart (s : jsstring) (targetLength : nat) (padString : jsstring) : jsstring :=
  let missing := (targetLength - length s)%nat in
  firstn missing (concat (repeat padString missing)) ++ s.

(** [Array.prototype.join('')] on an array of strings. *)
Definition join (parts : list jsstring) : jsstring := concat parts.

(** ** Text encoding (WHATWG Encoding) *)

Definition isHighSurrogate (u : N) : bool := (0xD800 <=? u) && (u <=? 0xDBFF).
Definition isLowSurrogate (u : N) : bool := (0xDC00 <=? u) && (u <=? 0xDFFF).

(** The scalar values of a string: a surrogate pair is one code point, a
    surrogate that stands alone becomes U+FFFD. *)
Fixpoint scalarValues (s : jsstring) : list N :=
  match s with
  | [] => []
  | u :: s' =>
      if isHighSurrogate u then
        match s' with
        | v :: s'' =>
            if isLowSurrogate v
            then 0x10000 + (u - 0xD800) * 0x400 + (v - 0xDC00) :: scalarValues s''
            else 0xFFFD :: scalarValues s'
        | [] => [0xFFFD]
        end
      else if isLowSurrogate u then 0xFFFD :: scalarValues s'
      else u :: scalarValues s'
  end.

Definition utf8_bytes (cp : N) : bytes :=
  if cp <? 0x80 then [cp]
  else if cp <? 0x800 then
    [N.lor 0xC0 (N.shiftr cp 6); N.lor 0x80 (N.land cp 0x3F)]
  else if cp <? 0x10000 then
    [N.lor 0xE0 (N.shiftr cp 12); N.lor 0x80 (N.land (N.shiftr cp 6) 0x3F);
     N.lor 0x80 (N.land cp 0x3F)]
  else
    [N.lor 0xF0 (N.shiftr cp 18); N.lor 0x80 (N.land (N.shiftr cp 12) 0x3F);
     N.lor 0x80 (N.land (N.shiftr cp 6) 0x3F); N.lor 0x80 (N.land cp 0x3F)].

(** [new TextEncoder().encode(s)]. *)
Definition TextEncoder_encode (s : jsstring) : bytes :=
  flat_map utf8_bytes (scalarValues s).

(** The UTF-8 decoder: either between code points, or inside one with the
    bits read so far, the number of bytes still needed and the bounds of the
    next byte. *)
Inductive decoder_state :=
| Between
| Inside (cp : N) (needed : nat) (lower upper : N).

(** A byte met between code points: the code points it yields at once, and
    the state it leaves. *)
Definition lead (b : N) : list N * decoder_state :=
  if b <=? 0x7F then ([b], Between)
  else if (0xC2 <=? b) && (b <=? 0xDF) then
    ([], Inside (N.land b 0x1F) 1 0x80 0xBF)
  else if (0xE0 <=? b) && (b <=? 0xEF) then
    ([], Inside (N.land b 0xF) 2 (if b =? 0xE0 then 0xA0 else 0x80)
                                 (if b =? 0xED then 0x9F else 0xBF))
  else if (0xF0 <=? b) && (b <=? 0xF4) then
    ([], Inside (N.land b 0x7) 3 (if b =? 0xF0 then 0x90 else 0x80)
                                 (if b =? 0xF4 then 0x8F else 0xBF))
  else ([0xFFFD], Between).

(** The decoder with error mode "replacement": a byte that cannot continue
    a sequence yields U+FFFD and is read again as the start of a new one; a
    sequence cut by the end of the input yields U+FFFD. *)
Fixpoint utf8_decode (st : decoder_state) (l : bytes) : list N :=
  match l with
  | [] =>
      match st with
      | Between => []
      | Inside _ _ _ _ => [0xFFFD]
      end
  | b :: l' =>
      match st with
      | Between => fst (lead b) ++ utf8_decode (snd (lead b)) l'
      | Inside cp needed lower upper =>
          if (lower <=? b) && (b <=? upper) then
            let cp' := N.lor (N.shiftl cp 6) (N.land b 0x3F) in
            match needed with
            | S (S n) => utf8_decode (Inside cp' (S n) 0x80 0xBF) l'
            | _ => cp' :: utf8_decode Between l'
            end
          else 0xFFFD :: fst (lead b) ++ utf8_decode (snd (lead b)) l'
      end
  end.

Definition stripBOM (l : bytes) : bytes :=
  match l with
  | b0 :: b1 :: b2 :: l' =>
      if (b0 =? 0xEF) && (b1 =? 0xBB) && (b2 =? 0xBF) then l' else l
  | _ => l
  end.

Definition codeUnits (cp : N) : jsstring :=
  if cp <? 0x10000 then [cp]
  else [0xD800 + N.shiftr (cp - 0x10000) 10; 0xDC00 + N.land (cp - 0x10000) 0x3FF].

(** [new TextDecoder('utf-8').decode(buffer)]: the decoder is not fatal and
    does not keep a byte order mark, as neither option is given. *)
Definition TextDecoder_decode (buffer : bytes) : jsstring :=
  flat_map codeUnits (utf8_decode Between (stripBOM buffer)).

(** ** SHA-256 (FIPS 180-4) *)

Module Sha256.

Definition w32 (x : N) : N := N.land x 0xFFFFFFFF.
Definition add32 (a b : N) : N := w32 (a + b).
Definition not32 (x : N) : N := N.lxor (w32 x) 0xFFFFFFFF.
Definition rotr (n x : N) : N :=
  N.lor (N.shiftr x n) (w32 (N.shiftl x (32 - n))).

Definition Ch (x y z : N) := N.lxor (N.land x y) (N.land (not32 x) z).
Definition Maj (x y z : N) :=
  N.lxor (N.lxor (N.land x y) (N.land x z)) (N.land y z).
Definition Sigma0 x := N.lxor (N.lxor (rotr 2 x) (rotr 13 x)) (rotr 22 x).
Definition Sigma1 x := N.lxor (N.lxor (rotr 6 x) (rotr 11 x)) (rotr 25 x).
Definition sigma0 x := N.lxor (N.lxor (rotr 7 x) (rotr 18 x)) (N.shiftr x 3).
Definition sigma1 x := N.lxor (N.lxor (rotr 17 x) (rotr 19 x)) (N.shiftr x 10).

(** The constants are taken from the square and cube roots of the first
    primes: the first 32 bits of the fractional part of a root. *)
Definition is_prime (n : N) : bool :=
  (2 <=? n) && forallb (fun d => negb (n mod N.of_nat d =? 0)) (seq 2 (N.to_nat n - 2)).

Definition primes : list N :=
  Eval vm_compute in filter is_prime (map N.of_nat (seq 0 312)).

Fixpoint cube_root_bits (bits : nat) (x r : N) : N :=
  match bits with
  | O => r
  | S b =>
      let c := N.lor r (N.shiftl 1 (N.of_nat b)) in
      cube_root_bits b x (if c * c * c <=? x then c else r)
  end.
Definition cube_root (x : N) : N := cube_root_bits 40 x 0.

Definition K : list N :=
  Eval vm_compute in map (fun p => w32 (cube_root (N.shiftl p 96))) primes.

(** The eight working variables, and the hash value between blocks. *)
Record state := State {
  sa : N; sb : N; sc : N; sd : N; se : N; sf : N; sg : N; sh : N }.

Definition square_root_word (i : nat) : N :=
  w32 (N.sqrt (N.shiftl (nth i primes 0) 64)).

Definition H0 : state :=
  Eval vm_compute in
    State (square_root_word 0) (square_root_word 1) (square_root_word 2)
          (square_root_word 3) (square_root_word 4) (square_root_word 5)
          (square_root_word 6) (square_root_word 7).

(** Message padding: a one bit, zero bits up to 56 modulo 64 bytes, and the
    length of the message in bits as a 64-bit big-endian number. *)
Definition pad (msg : bytes) : bytes :=
  let len := length msg in
  let zeros := (Nat.modulo (64 - Nat.modulo (len + 9) 64) 64)%nat in
  msg ++ [0x80] ++ repeat 0 zeros ++ be_bytes 8 (8 * N.of_nat len).

(** The message schedule, latest word first: [extend n w] adds [n] words to
    a schedule that holds at least sixteen. *)
Fixpoint extend (n : nat) (w : list N) : list N :=
  match n with
  | O => w
  | S n' =>
      let wt := add32 (add32 (sigma1 (nth 1 w 0)) (nth 6 w 0))
                      (add32 (sigma0 (nth 14 w 0)) (nth 15 w 0)) in
      extend n' (wt :: w)
  end.

Definition schedule (block : bytes) : list N :=
  rev (extend 48 (rev (map be_value (chunks 4 block)))).

Definition round (s : state) (kw : N * N) : state :=
  let (k, w) := kw in
  let t1 := add32 (add32 (add32 (sh s) (Sigma1 (se s)))
                         (add32 (Ch (se s) (sf s) (sg s)) k)) w in
  let t2 := add32 (Sigma0 (sa s)) (Maj (sa s) (sb s) (sc s)) in
  State (add32 t1 t2) (sa s) (sb s) (sc s) (add32 (sd s) t1) (se s) (sf s) (sg s).

Definition compress (h : state) (block : bytes) : state :=
  let s := fold_left round (combine K (schedule block)) h in
  State (add32 (sa h) (sa s)) (add32 (sb h) (sb s))
        (add32 (sc h) (sc s)) (add32 (sd h) (sd s))
        (add32 (se h) (se s)) (add32 (sf h) (sf s))
        (add32 (sg h) (sg s)) (add32 (sh h) (sh s)).

Definition output (s : state) : bytes :=
  be_bytes 4 (sa s) ++ be_bytes 4 (sb s) ++ be_bytes 4 (sc s) ++
  be_bytes 4 (sd s) ++ be_bytes 4 (se s) ++ be_bytes 4 (sf s) ++
  be_bytes 4 (sg s) ++ be_bytes 4 (sh s).

Definition sha256 (msg : bytes) : bytes :=
  output (fold_left compress (chunks 64 (pad msg)) H0).

End Sha256.

(** ** HMAC (RFC 2104) and PBKDF2 (RFC 8018) over SHA-256 *)

Module Pbkdf2.

Definition block_size : nat := 64.

Definition hmac_key (key : bytes) : bytes :=
  let k := if (block_size <? length key)%nat then Sha256.sha256 key else key in
  k ++ repeat 0 (block_size - length k).

Definition hmac_sha256 (key msg : bytes) : bytes :=
  let k := hmac_key key in
  let ipad := map (N.lxor 0x36) k in
  let opad := map (N.lxor 0x5c) k in
  Sha256.sha256 (opad ++ Sha256.sha256 (ipad ++ msg)).

(** One step of the inner loop: the pair is (U_j, U_1 xor ... xor U_j). *)
Definition iterate (password : bytes) (ut : bytes * bytes) : bytes * bytes :=
  let u := hmac_sha256 password (fst ut) in
  (u, xor_bytes (snd ut) u).

(** The block T_i = U_1 xor ... xor U_c of the derived key. *)
Definition block (password salt : bytes) (c : N) (i : N) : bytes :=
  let u1 := hmac_sha256 password (salt ++ be_bytes 4 i) in
  snd (N.iter (c - 1) (iterate password) (u1, u1)).

(** PBKDF2 with HMAC-SHA-256: [dkLen] bytes from [c] iterations. *)
Definition pbkdf2_hmac_sha256 (password salt : bytes) (c : N) (dkLen : nat) : bytes :=
  let l := ((dkLen + 31) / 32)%nat in
  firstn dkLen
    (concat (map (fun i => block password salt c (N.of_nat i)) (seq 1 l))).

End Pbkdf2.

(** ** AES (FIPS 197) *)

Module Aes.

(** Multiplication by x, and multiplication, in GF(2^8) modulo
    x^8 + x^4 + x^3 + x + 1. *)
Definition xtime (a : N) : N :=
  let d := N.shiftl a 1 in
  if N.testbit a 7 then N.lxor (N.land d 0xFF) 0x1b else d.

Fixpoint gmul_aux (n : nat) (a b acc : N) : N :=
  match n with
  | O => acc
  | S n' =>
      gmul_aux n' (xtime a) (N.shiftr b 1)
               (if N.testbit b 0 then N.lxor acc a else acc)
  end.
Definition gmul (a b : N) : N := gmul_aux 8 a b 0.

(** The multiplicative inverse is the 254th power; zero goes to zero. *)
Definition ginv (a : N) : N :=
  let a2 := gmul a a in let a4 := gmul a2 a2 in let a8 := gmul a4 a4 in
  let a16 := gmul a8 a8 in let a32 := gmul a16 a16 in
  let a64 := gmul a32 a32 in let a128 := gmul a64 a64 in
  gmul a128 (gmul a64 (gmul a32 (gmul a16 (gmul a8 (gmul a4 a2))))).

Definition rotl8 (n x : N) : N :=
  N.lor (N.land (N.shiftl x n) 0xFF) (N.shiftr x (8 - n)).

Definition sbox_of (a : N) : N :=
  let b := ginv a in
  N.lxor (N.lxor (N.lxor (N.lxor (N.lxor b (rotl8 1 b)) (rotl8 2 b))
                        (rotl8 3 b)) (rotl8 4 b)) 0x63.

Definition sbox_table : list N :=
  Eval vm_compute in map (fun i => sbox_of (N.of_nat i)) (seq 0 256).

Definition sbox (a : N) : N := nth (N.to_nat a) sbox_table 0.

Definition SubBytes (s : bytes) : bytes := map sbox s.

(** The state is held column by column, as the input block is: the byte of
    row r and column c is at position r + 4c. *)
Definition ShiftRows (s : bytes) : bytes :=
  map (fun i => let r := Nat.modulo i 4 in let c := Nat.div i 4 in
                nth (r + 4 * Nat.modulo (c + r) 4) s 0)
      (seq 0 16).

Definition mix_column (col : bytes) : bytes :=
  match col with
  | [a0; a1; a2; a3] =>
      [ N.lxor (N.lxor (gmul 2 a0) (gmul 3 a1)) (N.lxor a2 a3);
        N.lxor (N.lxor a0 (gmul 2 a1)) (N.lxor (gmul 3 a2) a3);
        N.lxor (N.lxor a0 a1) (N.lxor (gmul 2 a2) (gmul 3 a3));
        N.lxor (N.lxor (gmul 3 a0) a1) (N.lxor a2 (gmul 2 a3)) ]
  | _ => col
  end.

Definition MixColumns (s : bytes) : bytes := concat (map mix_column (chunks 4 s)).

Definition AddRoundKey (s rk : bytes) : bytes := xor_bytes s rk.

(** Key expansion; the words of the schedule are kept latest first. *)
Definition RotWord (w : bytes) : bytes :=
  match w with
  | a :: rest => rest ++ [a]
  | [] => []
  end.

Fixpoint rcon (j : nat) : N :=
  match j with
  | O => 0
  | S O => 1
  | S j' => xtime (rcon j')
  end.

Fixpoint expand (n : nat) (Nk i : nat) (w : list bytes) : list bytes :=
  match n with
  | O => w
  | S n' =>
      let prev := nth 0 w [] in
      let temp :=
        if (Nat.modulo i Nk =? 0)%nat
        then xor_bytes (map sbox (RotWord prev)) [rcon (Nat.div i Nk); 0; 0; 0]
        else if ((6 <? Nk) && (Nat.modulo i Nk =? 4))%nat%bool
             then map sbox prev
             else prev in
      expand n' Nk (S i) (xor_bytes (nth (Nk - 1) w []) temp :: w)
  end.

Definition key_schedule (key : bytes) : list bytes :=
  let Nk := (length key / 4)%nat in
  let total := (4 * (Nk + 7))%nat in
  map (@concat N)
      (chunks 4 (rev (expand (total - Nk) Nk Nk (rev (chunks 4 key))))).

Definition full_round (s rk : bytes) : bytes :=
  AddRoundKey (MixColumns (ShiftRows (SubBytes s))) rk.

Definition final_round (s rk : bytes) : bytes :=
  AddRoundKey (ShiftRows (SubBytes s)) rk.

(** The cipher on one block of sixteen bytes, for a key of 16, 24 or 32
    bytes. *)
Definition encrypt_block (key block : bytes) : bytes :=
  match key_schedule key with
  | rk0 :: rks =>
      let s := AddRoundKey block rk0 in
      let s := fold_left full_round (removelast rks) s in
      final_round s (last rks [])
  | [] => block
  end.

End Aes.

(** ** Galois/Counter Mode (NIST SP 800-38D) *)

Module Gcm.

(** Blocks are read as 128-bit numbers, first bit most significant. *)
Definition R : N := N.shiftl 0xE1 120.

Fixpoint gf_mul_aux (n : nat) (x v z : N) : N :=
  match n with
  | O => z
  | S n' =>
      let z' := if N.testbit x (N.of_nat n') then N.lxor z v else z in
      let v' := if N.testbit v 0 then N.lxor (N.shiftr v 1) R else N.shiftr v 1 in
      gf_mul_aux n' x v' z'
  end.
Definition gf_mul (x y : N) : N := gf_mul_aux 128 x y 0.

Definition pad16 (l : bytes) : bytes :=
  l ++ repeat 0 (Nat.modulo (16 - Nat.modulo (length l) 16) 16).

Definition ghash (h : N) (x : bytes) : N :=
  fold_left (fun y blk => gf_mul (N.lxor y (be_value blk)) h) (chunks 16 x) 0.

(** The counter block with its last 32 bits incremented modulo 2^32. *)
Definition inc32 (cb : bytes) : bytes :=
  firstn 12 cb ++ be_bytes 4 (N.land (be_value (skipn 12 cb) + 1) 0xFFFFFFFF).

Fixpoint gctr_blocks (key cb : bytes) (blocks : list bytes) : bytes :=
  match blocks with
  | [] => []
  | blk :: rest =>
      xor_bytes blk (Aes.encrypt_block key cb) ++ gctr_blocks key (inc32 cb) rest
  end.
Definition gctr (key icb x : bytes) : bytes := gctr_blocks key icb (chunks 16 x).

Definition hash_subkey (key : bytes) : N :=
  be_value (Aes.encrypt_block key (repeat 0 16%nat)).

Definition len64 (l : bytes) : bytes := be_bytes 8 (8 * N.of_nat (length l)).

Definition j0 (key iv : bytes) : bytes :=
  if (length iv =? 12)%nat then iv ++ [0; 0; 0; 1]
  else be_bytes 16 (ghash (hash_subkey key)
                          (pad16 iv ++ repeat 0 8%nat ++ len64 iv)).

(** The full 128-bit tag of a ciphertext under a key, IV and associated
    data. *)
Definition tag (key iv aad c : bytes) : bytes :=
  let s := ghash (hash_subkey key) (pad16 aad ++ pad16 c ++ len64 aad ++ len64 c) in
  gctr key (j0 key iv) (be_bytes 16 s).

(** Authenticated encryption: ciphertext followed by the first [t] bytes of
    the tag. *)
Definition encrypt (key iv aad p : bytes) (t : nat) : bytes :=
  let c := gctr key (inc32 (j0 key iv)) p in
  c ++ firstn t (tag key iv aad c).

(** Authenticated decryption of a ciphertext [c] with tag [tg]: the
    plaintext, or [None] (FAIL) when the tag does not verify. *)
Definition decrypt (key iv aad c tg : bytes) : option bytes :=
  if eqb_list (firstn (length tg) (tag key iv aad c)) tg
  then Some (gctr key (inc32 (j0 key iv)) c)
  else None.

End Gcm.

(** ** Exceptions and the observable world *)

(** An exception value: [error.name] and [error.message]. *)
Record JsError := mkError { name : jsstring; message : jsstring }.

(** [new Error(message)]. *)
Definition Error (msg : jsstring) : JsError := mkError (str "Error") msg.

(** How a call, or an awaited promise, ends. *)
Inductive Outcome (A : Type) : Type :=
| Returned (a : A)
| Thrown (e : JsError).
Arguments Returned {A} a.
Arguments Thrown {A} e.

(** Arguments of [console.log] and [console.error]. *)
Inductive JsValue :=
| VStr (s : jsstring)
| VNum (n : N)
| VErr (e : JsError).

Inductive ConsoleEntry :=
| ConsoleLog (args : list JsValue)
| ConsoleError (args : list JsValue).

(** Children that the handlers append to the element [content-display]: the
    button "Back to Form" with its click handler, an [iframe] with its
    [sandbox] attribute and the text written to its document, a [pre] with
    its text content. *)
Inductive Node :=
| BackButton
| Iframe (sandbox : jsstring) (written : jsstring)
| Pre (textContent : jsstring).

(** The part of the page the handlers touch.  The elements the scripts look
    up ([decryptForm], [loading], [error], [content-display], the submit
    button, [.container]) are those of the page the scripts are written for,
    and are taken to exist. *)
Record Dom := mkDom {
  loadingShown : bool;              (* class 'show' on #loading *)
  errorShown : bool;                (* class 'show' on #error *)
  errorText : jsstring;             (* textContent of #error *)
  contentShown : bool;              (* class 'show' on #content-display *)
  contentChildren : list Node;      (* children of #content-display *)
  submitDisabled : bool;            (* disabled on the submit button *)
  containerExpanded : bool;         (* class 'expanded' on .container *)
  formDisplay : option jsstring;    (* style.display of #decryptForm *)
  documentWritten : option jsstring (* text that replaced the page through
                                       document.open / write / close *)
}.

Definition set_loadingShown (v : bool) (d : Dom) : Dom :=
  mkDom v (errorShown d) (errorText d) (contentShown d) (contentChildren d)
        (submitDisabled d) (containerExpanded d) (formDisplay d) (documentWritten d).
Definition set_errorShown (v : bool) (d : Dom) : Dom :=
  mkDom (loadingShown d) v (errorText d) (contentShown d) (contentChildren d)
        (submitDisabled d) (containerExpanded d) (formDisplay d) (documentWritten d).
Definition set_errorText (v : jsstring) (d : Dom) : Dom :=
  mkDom (loadingShown d) (errorShown d) v (contentShown d) (contentChildren d)
        (submitDisabled d) (containerExpanded d) (formDisplay d) (documentWritten d).
Definition set_contentShown (v : bool) (d : Dom) : Dom :=
  mkDom (loadingShown d) (errorShown d) (errorText d) v (contentChildren d)
        (submitDisabled d) (containerExpanded d) (formDisplay d) (documentWritten d).
Definition set_contentChildren (v : list Node) (d : Dom) : Dom :=
  mkDom (loadingShown d) (errorShown d) (errorText d) (contentShown d) v
        (submitDisabled d) (containerExpanded d) (formDisplay d) (documentWritten d).
Definition set_submitDisabled (v : bool) (d : Dom) : Dom :=
  mkDom (loadingShown d) (errorShown d) (errorText d) (contentShown d)
        (contentChildren d) v (containerExpanded d) (formDisplay d) (documentWritten d).
Definition set_containerExpanded (v : bool) (d : Dom) : Dom :=
  mkDom (loadingShown d) (errorShown d) (errorText d) (contentShown d)
        (contentChildren d) (submitDisabled d) v (formDisplay d) (documentWritten d).
Definition set_formDisplay (v : option jsstring) (d : Dom) : Dom :=
  mkDom (loadingShown d) (errorShown d) (errorText d) (contentShown d)
        (contentChildren d) (submitDisabled d) (containerExpanded d) v (documentWritten d).
Definition set_documentWritten (v : option jsstring) (d : Dom) : Dom :=
  mkDom (loadingShown d) (errorShown d) (errorText d) (contentShown d)
        (contentChildren d) (submitDisabled d) (containerExpanded d) (formDisplay d) v.

(** ** The Web Cryptography and Fetch interfaces *)

Record KeyAlgorithm := mkKeyAlgorithm {
  alg_name : jsstring;
  alg_length : option N }.

(** A [CryptoKey]: its attributes, and the key material behind it. *)
Record CryptoKey := mkCryptoKey {
  algorithm : KeyAlgorithm;
  extractable : bool;
  usages : list jsstring;
  handle : bytes }.

Record Pbkdf2Params := mkPbkdf2Params {
  pbkdf2_name : jsstring;
  salt : bytes;
  iterations : N;
  hash : jsstring }.

Record AesDerivedKeyParams := mkAesDerivedKeyParams {
  aes_name : jsstring;
  aes_length : N }.

Record AesGcmParams := mkAesGcmParams {
  gcm_name : jsstring;
  iv : bytes;
  additionalData : option bytes;
  tagLength : option N }.

Record Response := mkResponse {
  status : N;
  statusText : jsstring;
  body : Outcome bytes  (* what response.arrayBuffer() settles to *) }.

(** [response.ok]. *)
Definition ok (r : Response) : bool := (200 <=? status r) && (status r <=? 299).

Inductive FetchReply :=
| NetworkError (e : JsError)
| Responded (r : Response).

(** What the scripts do not determine: what the network answers to a
    request, and the message the platform gives to a [DOMException] of a
    given name. *)
Record Platform := mkPlatform {
  network : jsstring -> FetchReply;
  exceptionMessage : jsstring -> jsstring }.

(** The requests the scripts make to the platform, as they are made. *)
Inductive Call :=
| SubtleDigest (alg : jsstring) (data : bytes)
| SubtleImportKey (format : jsstring) (keyData : bytes) (alg : jsstring)
                  (extr : bool) (keyUsages : list jsstring)
| SubtleDeriveKey (params : Pbkdf2Params) (baseKey : CryptoKey)
                  (derivedKeyType : AesDerivedKeyParams)
                  (extr : bool) (keyUsages : list jsstring)
| SubtleDecrypt (params : AesGcmParams) (key : CryptoKey) (data : bytes)
| Fetch (url : jsstring).

(** What a run can change and an observer can see: the console, the
    requests made to the platform, and the page; each list in the order of
    time. *)
Record World := mkWorld {
  console : list ConsoleEntry;
  calls : list Call;
  dom : Dom }.

(** Computations: they read and change the world, and return or throw. *)
Definition M (A : Type) : Type := World -> Outcome A * World.

Definition ret {A} (a : A) : M A := fun w => (Returned a, w).
Definition throw {A} (e : JsError) : M A := fun w => (Thrown e, w).
Definition bind {A B} (m : M A) (k : A -> M B) : M B :=
  fun w =>
    match m w with
    | (Returned a, w') => k a w'
    | (Thrown e, w') => (Thrown e, w')
    end.

Declare Scope js_scope.
Delimit Scope js_scope with js.
Notation "x <- m ;; k" := (bind m (fun x => k))
  (at level 61, m at next level, right associativity) : js_scope.
Notation "m ;; k" := (bind m (fun _ => k))
  (at level 61, right associativity) : js_scope.
Open Scope js_scope.

(** [try { body } catch (error) { handler }]. *)
Definition try_catch {A} (body : M A) (handler : JsError -> M A) : M A :=
  fun w =>
    match body w with
    | (Returned a, w') => (Returned a, w')
    | (Thrown e, w') => handler e w'
    end.

(** [try { body } finally { finalizer }]: the finalizer runs on both ways
    out of the body, and the way out of the body stands unless the finalizer
    throws. *)
Definition try_finally {A} (body : M A) (finalizer : M unit) : M A :=
  fun w =>
    match body w with
    | (r, w') =>
        match finalizer w' with
        | (Returned _, w'') => (r, w'')
        | (Thrown e, w'') => (Thrown e, w'')
        end
    end.

Definition console_log (args : list JsValue) : M unit :=
  fun w => (Returned tt, mkWorld (console w ++ [ConsoleLog args]) (calls w) (dom w)).
Definition console_error (args : list JsValue) : M unit :=
  fun w => (Returned tt, mkWorld (console w ++ [ConsoleError args]) (calls w) (dom w)).
Definition request (c : Call) : M unit :=
  fun w => (Returned tt, mkWorld (console w) (calls w ++ [c]) (dom w)).
Definition update_dom (f : Dom -> Dom) : M unit :=
  fun w => (Returned tt, mkWorld (console w) (calls w) (f (dom w))).

Definition member (x : jsstring) (l : list jsstring) : bool := existsb (eqb_list x) l.
Definition memberN (x : N) (l : list N) : bool := existsb (N.eqb x) l.

Section PlatformInterfaces.

Variable P : Platform.

Definition DOMException (nm : jsstring) : JsError :=
  mkError nm (exceptionMessage P nm).

(** [crypto.subtle.digest(algorithm, data)], for SHA-256. *)
Definition subtle_digest (alg : jsstring) (data : bytes) : M bytes :=
  request (SubtleDigest alg data) ;;
  if eqb_list alg (str "SHA-256") then ret (Sha256.sha256 data)
  else throw (DOMException (str "NotSupportedError")).

(** [crypto.subtle.importKey(format, keyData, algorithm, extractable,
    keyUsages)], for PBKDF2 key material. *)
Definition subtle_importKey (format : jsstring) (keyData : bytes) (alg : jsstring)
           (extr : bool) (keyUsages : list jsstring) : M CryptoKey :=
  request (SubtleImportKey format keyData alg extr keyUsages) ;;
  if negb (eqb_list alg (str "PBKDF2")) then throw (DOMException (str "NotSupportedError"))
  else if negb (eqb_list format (str "raw")) then throw (DOMException (str "NotSupportedError"))
  else if negb (forallb (fun u => member u [str "deriveKey"; str "deriveBits"]) keyUsages)
  then throw (DOMException (str "SyntaxError"))
  else if extr then throw (DOMException (str "SyntaxError"))
  else if (length keyUsages =? 0)%nat then throw (DOMException (str "SyntaxError"))
  else ret (mkCryptoKey (mkKeyAlgorithm (str "PBKDF2") None) false keyUsages keyData).

(** [crypto.subtle.deriveKey(algorithm, baseKey, derivedKeyType,
    extractable, keyUsages)], for PBKDF2 with HMAC-SHA-256 deriving an
    AES-GCM key. *)
Definition subtle_deriveKey (params : Pbkdf2Params) (baseKey : CryptoKey)
           (derivedKeyType : AesDerivedKeyParams)
           (extr : bool) (keyUsages : list jsstring) : M CryptoKey :=
  request (SubtleDeriveKey params baseKey derivedKeyType extr keyUsages) ;;
  if negb (eqb_list (pbkdf2_name params) (str "PBKDF2"))
  then throw (DOMException (str "NotSupportedError"))
  else if negb (eqb_list (aes_name derivedKeyType) (str "AES-GCM"))
  then throw (DOMException (str "NotSupportedError"))
  else if negb (eqb_list (pbkdf2_name params) (alg_name (algorithm baseKey)))
  then throw (DOMException (str "InvalidAccessError"))
  else if negb (member (str "deriveKey") (usages baseKey))
  then throw (DOMException (str "InvalidAccessError"))
  else if negb (memberN (aes_length derivedKeyType) [128; 192; 256])
  then throw (DOMException (str "OperationError"))
  else if iterations params =? 0 then throw (DOMException (str "OperationError"))
  else if negb (eqb_list (hash params) (str "SHA-256"))
  then throw (DOMException (str "NotSupportedError"))
  else if negb (forallb (fun u => member u [str "encrypt"; str "decrypt";
                                            str "wrapKey"; str "unwrapKey"]) keyUsages)
  then throw (DOMException (str "SyntaxError"))
  else if (length keyUsages =? 0)%nat then throw (DOMException (str "SyntaxError"))
  else ret (mkCryptoKey
              (mkKeyAlgorithm (str "AES-GCM") (Some (aes_length derivedKeyType)))
              extr keyUsages
              (Pbkdf2.pbkdf2_hmac_sha256 (handle baseKey) (salt params)
                 (iterations params) (N.to_nat (aes_length derivedKeyType / 8)))).

(** [crypto.subtle.decrypt(algorithm, key, data)], for AES-GCM: the last
    [tagLength] bits of [data] are the authentication tag. *)
Definition subtle_decrypt (params : AesGcmParams) (key : CryptoKey) (data : bytes)
  : M bytes :=
  request (SubtleDecrypt params key data) ;;
  if negb (eqb_list (gcm_name params) (str "AES-GCM"))
  then throw (DOMException (str "NotSupportedError"))
  else if negb (eqb_list (gcm_name params) (alg_name (algorithm key)))
  then throw (DOMException (str "InvalidAccessError"))
  else if negb (member (str "decrypt") (usages key))
  then throw (DOMException (str "InvalidAccessError"))
  else
    let t := match tagLength params with Some t => t | None => 128 end in
    if negb (memberN t [32; 64; 96; 104; 112; 120; 128])
    then throw (DOMException (str "OperationError"))
    else if 8 * byteLength data <? t then throw (DOMException (str "OperationError"))
    else
      let n := (length data - N.to_nat (t / 8))%nat in
      let aad := match additionalData params with Some a => a | None => [] end in
      match Gcm.decrypt (handle key) (iv params) aad (firstn n data) (skipn n data) with
      | Some plaintext => ret plaintext
      | None => throw (DOMException (str "OperationError"))
      end.

(** [fetch(url)]. *)
Definition fetch (url : jsstring) : M Response :=
  request (Fetch url) ;;
  match network P url with
  | NetworkError e => throw e
  | Responded r => ret r
  end.

(** [response.arrayBuffer()]. *)
Definition arrayBuffer (r : Response) : M bytes := fun w => (body r, w).

End PlatformInterfaces.

(** ** crypto.js *)

Module Crypto.

(** Constants matching the Java implementation. *)
Definition PBKDF2_ITERATIONS : N := 100000.
Definition KEY_LENGTH : N := 256.
Definition GCM_IV_LENGTH : N := 12.
Definition GCM_TAG_LENGTH : N := 128.

(** The values of the inputs [indexNumber] and [id] when the form is
    submitted. *)
Record FormValues := mkFormValues {
  indexNumberValue : jsstring;
  idValue : jsstring }.

(** [hashArray.map(b => b.toString(16).padStart(2, '0').toUpperCase()).join('')] *)
Definition hashHexOf (hashArray : bytes) : jsstring :=
  join (map (fun b => toUpperCase (padStart (toStringRadix 16 b) 2 (str "0")))
            hashArray).

(** The click handler of the button "Back to Form" that the handler adds
    before the content. *)
Definition backButtonClick : M unit :=
  update_dom (set_containerExpanded false) ;;
  update_dom (set_formDisplay (Some (str "block"))) ;;
  update_dom (set_contentShown false) ;;
  update_dom (set_contentChildren []) ;;
  update_dom (set_errorShown false).

Section WithPlatform.

Variable P : Platform.

(** SHA-256 hash of the index, as an uppercase hexadecimal string. *)
Definition getHash (index : jsstring) : M jsstring :=
  let data := TextEncoder_encode index in
  hashBuffer <- subtle_digest P (str "SHA-256") data ;;
  let hashArray := hashBuffer in
  let hashHex := hashHexOf hashArray in
  ret hashHex.

(** The file name for an index and an id. *)
Definition getEncryptedFilename (index id : jsstring) : M jsstring :=
  let combined := index ++ str "|" ++ id in
  let data := TextEncoder_encode combined in
  hashBuffer <- subtle_digest P (str "SHA-256") data ;;
  let hashArray := hashBuffer in
  let hashHex := hashHexOf hashArray in
  ret (hashHex ++ str ".enc").

(** The AES key for an id (the password) and an index (the salt). *)
Definition getKey (id index : jsstring) : M CryptoKey :=
  passwordKey <- subtle_importKey P
                   (str "raw")
                   (TextEncoder_encode id)
                   (str "PBKDF2")
                   false
                   [str "deriveBits"; str "deriveKey"] ;;
  key <- subtle_deriveKey P
           (mkPbkdf2Params (str "PBKDF2") (TextEncoder_encode index)
                           PBKDF2_ITERATIONS (str "SHA-256"))
           passwordKey
           (mkAesDerivedKeyParams (str "AES-GCM") KEY_LENGTH)
           false
           [str "decrypt"; str "encrypt"] ;;
  ret key.

(** Decrypts the content of a file: the IV in its first 12 bytes, then
    the encrypted data with its authentication tag. *)
Definition decrypt (key : CryptoKey) (encryptedData : bytes) : M jsstring :=
  try_catch
    ((if byteLength encryptedData <? GCM_IV_LENGTH
      then throw (Error (str "Invalid encrypted file: too short to contain IV"))
      else ret tt) ;;
     let iv := slice encryptedData 0 GCM_IV_LENGTH in
     let ciphertext := slice_from encryptedData GCM_IV_LENGTH in
     console_log [VStr (str "Decryption details:")] ;;
     console_log [VStr (str "- IV length:"); VNum (byteLength iv); VStr (str "bytes")] ;;
     console_log [VStr (str "- Ciphertext length:"); VNum (byteLength ciphertext);
                  VStr (str "bytes")] ;;
     console_log [VStr (str "- Using AES-GCM with"); VNum PBKDF2_ITERATIONS;
                  VStr (str "iterations")] ;;
     decryptedBuffer <- subtle_decrypt P
                          (mkAesGcmParams (str "AES-GCM") iv None (Some GCM_TAG_LENGTH))
                          key
                          ciphertext ;;
     let decryptedText := TextDecoder_decode decryptedBuffer in
     console_log [VStr (str "Decryption successful! Content length:");
                  VNum (N.of_nat (length decryptedText)); VStr (str "characters")] ;;
     ret decryptedText)
    (fun error =>
       console_error [VStr (str "Decryption failed:"); VErr error] ;;
       if eqb_list (name error) (str "OperationError")
       then throw (Error (str "Decryption failed: Invalid credentials or corrupted file. The authentication tag verification failed."))
       else if includes (message error) (str "too short")
       then throw (Error (str "Invalid encrypted file format: File is too small."))
       else throw (Error (str "Decryption failed: " ++ message error))).

(** Fetches an encrypted file by its name. *)
Definition fetchFile (filename : jsstring) : M bytes :=
  let url := str "https://pasinduravimal.github.io/GPACalculator/files/" ++ filename in
  console_log [VStr (str "Fetching file from:"); VStr url] ;;
  response <- fetch P url ;;
  if negb (ok response)
  then throw (Error (str "Failed to fetch file: " ++ toStringRadix 10 (status response)
                     ++ str " " ++ statusText response))
  else arrayBuffer response.

(** The test "content is HTML" of the handlers. *)
Definition isHtml (decryptedContent : jsstring) : bool :=
  startsWith (toLowerCase (trim decryptedContent)) (str "<!doctype") ||
  startsWith (toLowerCase (trim decryptedContent)) (str "<html").

(** Step 5 of the handler: display the content. *)
Definition displayContent (decryptedContent : jsstring) : M unit :=
  update_dom (set_containerExpanded true) ;;
  update_dom (set_formDisplay (Some (str "none"))) ;;
  update_dom (fun d => set_contentChildren (contentChildren d ++ [BackButton]) d) ;;
  (if isHtml decryptedContent
   then
     update_dom (fun d =>
       set_contentChildren
         (contentChildren d ++
          [Iframe (str "allow-same-origin allow-scripts allow-forms allow-modals")
                  decryptedContent]) d)
   else
     update_dom (fun d => set_contentChildren (contentChildren d ++ [Pre decryptedContent]) d)) ;;
  update_dom (set_contentShown true).

(** The handler of the form's submit event. *)
Definition submitHandler (form : FormValues) : M unit :=
  let indexNumber := trim (indexNumberValue form) in
  let id := trim (idValue form) in
  (* Reset UI *)
  update_dom (set_loadingShown true) ;;
  update_dom (set_errorShown false) ;;
  update_dom (set_contentShown false) ;;
  update_dom (set_contentChildren []) ;;
  update_dom (set_submitDisabled true) ;;
  try_finally
    (try_catch
       ((* Step 1: Generate encrypted filename from index and id *)
        console_log [VStr (str "Generating filename...")] ;;
        filename <- getEncryptedFilename indexNumber id ;;
        console_log [VStr (str "Filename:"); VStr filename] ;;
        (* Step 2: Fetch encrypted file *)
        console_log [VStr (str "Fetching encrypted file...")] ;;
        encryptedData <- fetchFile filename ;;
        console_log [VStr (str "File fetched, size:"); VNum (byteLength encryptedData);
                     VStr (str "bytes")] ;;
        (* Step 3: Derive decryption key *)
        console_log [VStr (str "Deriving AES-GCM key with"); VNum PBKDF2_ITERATIONS;
                     VStr (str "iterations...")] ;;
        key <- getKey id indexNumber ;;
        console_log [VStr (str "Key derived successfully")] ;;
        (* Step 4: Decrypt the content using AES-GCM *)
        console_log [VStr (str "Decrypting with AES-GCM...")] ;;
        decryptedContent <- decrypt key encryptedData ;;
        console_log [VStr (str "Decryption successful!")] ;;
        (* Step 5: Display the content *)
        displayContent decryptedContent)
       (fun error =>
          console_error [VStr (str "Error:"); VErr error] ;;
          update_dom (set_errorText (str "Error: " ++ message error)) ;;
          update_dom (set_errorShown true)))
    (update_dom (set_loadingShown false) ;;
     update_dom (set_submitDisabled false)).

End WithPlatform.

End Crypto.

(** ** crypto-alternative.js *)

Module CryptoAlternative.

Import Crypto.

(** The click handler of the button "Back to Form" of the text display. *)
Definition backButtonClick : M unit :=
  update_dom (set_containerExpanded false) ;;
  update_dom (set_formDisplay (Some (str "block"))) ;;
  update_dom (set_contentShown false) ;;
  update_dom (set_contentChildren []) ;;
  update_dom (set_errorShown false).

Section WithPlatform.

Variable P : Platform.

(** Step 5 of the handler: display the content; HTML replaces the
    current page (option A of the script). *)
Definition displayContent (decryptedContent : jsstring) : M unit :=
  if isHtml decryptedContent
  then update_dom (set_documentWritten (Some decryptedContent))
  else
    update_dom (set_containerExpanded true) ;;
    update_dom (set_formDisplay (Some (str "none"))) ;;
    update_dom (fun d => set_contentChildren (contentChildren d ++ [BackButton]) d) ;;
    update_dom (fun d => set_contentChildren (contentChildren d ++ [Pre decryptedContent]) d) ;;
    update_dom (set_contentShown true).

(** The handler of the form's submit event. *)
Definition submitHandler (form : FormValues) : M unit :=
  let indexNumber := trim (indexNumberValue form) in
  let id := trim (idValue form) in
  (* Reset UI *)
  update_dom (set_loadingShown true) ;;
  update_dom (set_errorShown false) ;;
  update_dom (set_contentShown false) ;;
  update_dom (set_contentChildren []) ;;
  update_dom (set_submitDisabled true) ;;
  try_finally
    (try_catch
       ((* Step 1: Calculate hash of index *)
        console_log [VStr (str "Calculating hash...")] ;;
        hash <- getHash P indexNumber ;;
        console_log [VStr (str "Hash:"); VStr hash] ;;
        (* Step 2: Fetch encrypted file *)
        console_log [VStr (str "Fetching file...")] ;;
        encryptedData <- fetchFile P hash ;;
        console_log [VStr (str "File fetched, size:"); VNum (byteLength encryptedData);
                     VStr (str "bytes")] ;;
        (* Step 3: Derive decryption key *)
        console_log [VStr (str "Deriving key...")] ;;
        key <- getKey P id indexNumber ;;
        console_log [VStr (str "Key derived")] ;;
        (* Step 4: Decrypt the content *)
        console_log [VStr (str "Decrypting...")] ;;
        decryptedContent <- decrypt P key encryptedData ;;
        console_log [VStr (str "Decryption successful")] ;;
        (* Step 5: Display the content *)
        displayContent decryptedContent)
       (fun error =>
          console_error [VStr (str "Error:"); VErr error] ;;
          update_dom (set_errorText (str "Error: " ++ message error)) ;;
          update_dom (set_errorShown true)))
    (update_dom (set_loadingShown false) ;;
     update_dom (set_submitDisabled false)).

End WithPlatform.

End CryptoAlternative.

(** ** The vocabulary of the specification *)

(** The two fixed errors that [decrypt] throws: a blob too short to hold a
    nonce, and a tag that does not verify. *)
Definition MalformedBlob : JsError :=
  Error (str "Invalid encrypted file format: File is too small.").
Definition AuthenticationFailure : JsError :=
  Error (str "Decryption failed: Invalid credentials or corrupted file. The authentication tag verification failed.").

(** A key that [crypto.subtle.decrypt] accepts for AES-GCM. *)
Definition usableKey (key : CryptoKey) : Prop :=
  alg_name (algorithm key) = str "AES-GCM" /\
  member (str "decrypt") (usages key) = true.

(** The blob wire format: nonce (12 bytes), ciphertext, tag (16 bytes).
    [openBlob k blob] is what authenticated decryption under the key
    material [k], without associated data, makes of such a blob: the
    plaintext if the tag verifies.  A blob of fewer than 28 bytes holds no
    tag to verify. *)
Definition openBlob (k : bytes) (blob : bytes) : option bytes :=
  if (length blob <? 28)%nat then None
  else Gcm.decrypt k (firstn 12 blob) []
                   (firstn (length blob - 28) (skipn 12 blob))
                   (skipn (length blob - 16) blob).

(** Uppercase hexadecimal, two digits for each byte. *)
Definition hexDigit (d : N) : N := nth (N.to_nat d) (str "0123456789ABCDEF") 0.
Definition hexUpper (l : bytes) : jsstring :=
  flat_map (fun b => [hexDigit (b / 16); hexDigit (b mod 16)]) l.

(** Well-formed UTF-8: the encoding of a sequence of Unicode scalar
    values. *)
Definition isScalarValue (cp : N) : Prop :=
  cp < 0xD800 \/ (0xE000 <= cp /\ cp < 0x110000).

(** The request that [decrypt] makes for a blob, and what it writes to the
    console before it. *)
Definition decryptParams (blob : bytes) : AesGcmParams :=
  mkAesGcmParams (str "AES-GCM") (firstn 12 blob) None (Some 128).

Definition decryptLogs (blob : bytes) : list ConsoleEntry :=
  [ ConsoleLog [VStr (str "Decryption details:")];
    ConsoleLog [VStr (str "- IV length:"); VNum (byteLength (firstn 12 blob));
                VStr (str "bytes")];
    ConsoleLog [VStr (str "- Ciphertext length:"); VNum (byteLength (skipn 12 blob));
                VStr (str "bytes")];
    ConsoleLog [VStr (str "- Using AES-GCM with"); VNum 100000; VStr (str "iterations")] ].

(** The locator of an identity, the address a file name is fetched from, and
    the key of an identity. *)
Definition locator (index id : jsstring) : jsstring :=
  hexUpper (Sha256.sha256 (TextEncoder_encode (index ++ str "|" ++ id))) ++ str ".enc".

Definition fileUrl (filename : jsstring) : jsstring :=
  str "https://pasinduravimal.github.io/GPACalculator/files/" ++ filename.

Definition derivedKey (id index : jsstring) : CryptoKey :=
  mkCryptoKey (mkKeyAlgorithm (str "AES-GCM") (Some 256)) false
              [str "decrypt"; str "encrypt"]
              (Pbkdf2.pbkdf2_hmac_sha256 (TextEncoder_encode id) (TextEncoder_encode index)
                                         100000 32).

(** The requests of [getKey]. *)
Definition deriveCalls (id index : jsstring) : list Call :=
  [ SubtleImportKey (str "raw") (TextEncoder_encode id) (str "PBKDF2") false
                    [str "deriveBits"; str "deriveKey"];
    SubtleDeriveKey
      (mkPbkdf2Params (str "PBKDF2") (TextEncoder_encode index) 100000 (str "SHA-256"))
      (mkCryptoKey (mkKeyAlgorithm (str "PBKDF2") None) false
                   [str "deriveBits"; str "deriveKey"] (TextEncoder_encode id))
      (mkAesDerivedKeyParams (str "AES-GCM") 256) false
      [str "decrypt"; str "encrypt"] ].

(** The fetch capability: the bytes behind an address, or the failure of the
    transport or of the response. *)
Definition fetchOutcome (P : Platform) (url : jsstring) : Outcome bytes :=
  match network P url with
  | NetworkError e => Thrown e
  | Responded r =>
      if ok r then body r
      else Thrown (Error (str "Failed to fetch file: " ++ toStringRadix 10 (status r)
                          ++ str " " ++ statusText r))
  end.

(** The requests of [decrypt]. *)
Definition decryptCalls (key : CryptoKey) (blob : bytes) : list Call :=
  if byteLength blob <? 12 then []
  else [SubtleDecrypt (decryptParams blob) key (skipn 12 blob)].

(** The page as the handlers leave it: after the reset, with the busy state
    released, with a failure shown, and with content displayed by each of
    the two scripts. *)
Definition sandboxTokens : jsstring :=
  str "allow-same-origin allow-scripts allow-forms allow-modals".

Definition resetDom (d : Dom) : Dom :=
  set_submitDisabled true (set_contentChildren [] (set_contentShown false
    (set_errorShown false (set_loadingShown true d)))).

Definition releasedDom (d : Dom) : Dom :=
  set_submitDisabled false (set_loadingShown false d).

Definition failedDom (e : JsError) (d : Dom) : Dom :=
  releasedDom (set_errorShown true (set_errorText (str "Error: " ++ message e) (resetDom d))).

Definition displayedDom (content : jsstring) (d : Dom) : Dom :=
  set_contentShown true
    (set_contentChildren
       (contentChildren d ++
        [BackButton;
         if Crypto.isHtml content then Iframe sandboxTokens content else Pre content])
       (set_formDisplay (Some (str "none")) (set_containerExpanded true d))).

Definition displayedDomAlternative (content : jsstring) (d : Dom) : Dom :=
  if Crypto.isHtml content then set_documentWritten (Some content) d
  else set_contentShown true
         (set_contentChildren (contentChildren d ++ [BackButton; Pre content])
            (set_formDisplay (Some (str "none")) (set_containerExpanded true d))).

(** A failure as the page shows it after a run: the message of the error,
    and nothing of a result. *)
Definition showsFailure (e : JsError) (before after : Dom) : Prop :=
  errorShown after = true /\
  errorText after = str "Error: " ++ message e /\
  contentShown after = false /\
  contentChildren after = [] /\
  documentWritten after = documentWritten before.

(** Text made of white space only, and text that begins with a prefix. *)
Definition whiteSpaceOnly (s : jsstring) : Prop := forallb isWhiteSpace s = true.

Definition hasPrefix (s prefix : jsstring) : Prop := exists rest, s = prefix ++ rest.

(** The classification of a plaintext as markup: trimmed and in lower case,
    it begins with a document type or with the root of a document. *)
Definition isMarkup (plaintext : jsstring) : Prop :=
  hasPrefix (toLowerCase (trim plaintext)) (str "<!doctype") \/
  hasPrefix (toLowerCase (trim plaintext)) (str "<html").

(** Strings without a surrogate that stands alone, every code unit a
    16-bit number: what [String.prototype.isWellFormed] accepts. *)
Inductive WellFormed : jsstring -> Prop :=
| wf_nil : WellFormed []
| wf_unit u s :
    u < 0x10000 -> isHighSurrogate u = false -> isLowSurrogate u = false ->
    WellFormed s -> WellFormed (u :: s)
| wf_pair h l s :
    isHighSurrogate h = true -> isLowSurrogate l = true ->
    WellFormed s -> WellFormed (h :: l :: s).

(** ** The decoder, byte by byte *)

(** One byte through the decoder: what it yields and the state it leaves;
    and a run of bytes. *)
Definition utf8_step (st : decoder_state) (b : N) : list N * decoder_state :=
  match st with
  | Between => lead b
  | Inside cp needed lower upper =>
      if (lower <=? b) && (b <=? upper) then
        let cp' := N.lor (N.shiftl cp 6) (N.land b 0x3F) in
        match needed with
        | S (S n) => ([], Inside cp' (S n) 0x80 0xBF)
        | _ => ([cp'], Between)
        end
      else (0xFFFD :: fst (lead b), snd (lead b))
  end.

Fixpoint utf8_run (st : decoder_state) (l : bytes) : list N * decoder_state :=
  match l with
  | [] => ([], st)
  | b :: l' =>
      let (out, st') := utf8_step st b in
      let (out', st'') := utf8_run st' l' in
      (out ++ out', st'')
  end.

(** The bytes of a code point of more than one byte, but the last: they are
    decided by the bits of the code point above its lowest six. *)
Definition leading_bytes (t : N) : bytes :=
  if t <? 0x20 then [N.lor 0xC0 t]
  else if t <? 0x400 then [N.lor 0xE0 (N.shiftr t 6); N.lor 0x80 (N.land t 0x3F)]
  else [N.lor 0xF0 (N.shiftr t 12); N.lor 0x80 (N.land (N.shiftr t 6) 0x3F);
        N.lor 0x80 (N.land t 0x3F)].

(** What is checked of the bits [t] above the lowest six of every scalar
    value of more than one byte: after the leading bytes the decoder needs
    one byte more, and has read [t]. *)
Definition leading_checks (t : N) : bool :=
  negb ((2 <=? t) && ((t <? 0x360) || (0x380 <=? t))) ||
  match utf8_run Between (leading_bytes t) with
  | ([], Inside c needed lower upper) =>
      (c =? t) && (needed =? 1)%nat && (lower =? 0x80) && (upper =? 0xBF)
  | _ => false
  end.

(** What is checked of the lowest six bits [d]: the last byte continues a
    sequence, and gives the six bits back. *)
Definition trailing_checks (d : N) : bool :=
  (0x80 <=? N.lor 0x80 d) && (N.lor 0x80 d <=? 0xBF) && (N.land (N.lor 0x80 d) 0x3F =? d).

(** A test on every number below a bound. *)
Definition all_below (n : N) (f : N -> bool) : bool :=
  fst (N.iter n (fun s : bool * N => (fst s && f (snd s), N.succ (snd s))) (true, 0)).

(** ** Data for the examples *)

Definition ascii_bytes (s : string) : bytes := str s.
Definition initialDom : Dom := mkDom false false [] false [] false false None None.
Definition initialWorld : World := mkWorld [] [] initialDom.

(** A platform on which every request is answered "404 Not Found". *)
Definition offlinePlatform : Platform :=
  mkPlatform (fun _ => Responded (mkResponse 404 (str "Not Found") (Returned [])))
             (fun _ => []).

(** A platform on which every request is answered with a file of three
    bytes. *)
Definition truncatedPlatform : Platform :=
  mkPlatform (fun _ => Responded (mkResponse 200 (str "OK") (Returned [1; 2; 3])))
             (fun _ => []).

(** An AES-GCM key over the key material 00 01 ... 1f, another over
    01 02 ... 20, and a blob under the first key and the nonce 64 65 ... 6f:
    the encryption of the one byte ff, which is not UTF-8; and the same blob
    with the last bit of its tag flipped. *)
Definition sampleKey : CryptoKey :=
  mkCryptoKey (mkKeyAlgorithm (str "AES-GCM") (Some 256)) false
              [str "decrypt"; str "encrypt"] (map N.of_nat (seq 0 32)).
Definition otherKey : CryptoKey :=
  mkCryptoKey (mkKeyAlgorithm (str "AES-GCM") (Some 256)) false
              [str "decrypt"; str "encrypt"] (map N.of_nat (seq 1 32)).
Definition sampleNonce : bytes := map N.of_nat (seq 100 12).
Definition blobFF : bytes :=
  sampleNonce ++ [0xb7] ++ be_bytes 16 0x08812d5ee9d7346e035f6b1409cee613.
Definition blobTampered : bytes :=
  sampleNonce ++ [0xb7] ++ be_bytes 16 0x08812d5ee9d7346e035f6b1409cee612.

(** ** More vocabulary: published blobs and requested addresses *)

(** The blob that is published for a plaintext under key material [k] and a
    nonce: the nonce, then the ciphertext with its tag of 16 bytes. *)
Definition sealedBlob (k nonce p : bytes) : bytes :=
  nonce ++ Gcm.encrypt k nonce [] p 16.

(** The addresses asked of the network among some requests. *)
Definition requestedUrls (l : list Call) : list jsstring :=
  flat_map (fun c => match c with Fetch url => [url] | _ => [] end) l.

(** The requests that a run adds to those made before it. *)
Definition newCalls (before after : World) : list Call :=
  skipn (length (calls before)) (calls after).

(** The key that [getKey] imports from the password, before the derivation:
    a PBKDF2 key, which the cipher does not accept. *)
Definition passwordKeyOf (id : jsstring) : CryptoKey :=
  mkCryptoKey (mkKeyAlgorithm (str "PBKDF2") None) false
              [str "deriveBits"; str "deriveKey"] (TextEncoder_encode id).

(** A platform that answers every request with the blob published for the
    text "plain result text" and the identity (2020123, 987654321). *)
Definition publishedText : jsstring := str "plain result text".
Definition publishedBlob : bytes :=
  sealedBlob (handle (derivedKey (str "987654321") (str "2020123"))) sampleNonce
             (TextEncoder_encode publishedText).
Definition servingPlatform : Platform :=
  mkPlatform (fun _ => Responded (mkResponse 200 (str "OK") (Returned publishedBlob)))
             (fun _ => []).

(** The blob published under [otherKey] for the one byte 41. *)
Definition blobA : bytes := sealedBlob (handle otherKey) sampleNonce [0x41].

(** What [decrypt] writes to the console under a key that the cipher
    accepts. *)
Definition decryptConsole (P : Platform) (key : CryptoKey) (blob : bytes) : list ConsoleEntry :=
  if byteLength blob <? 12
  then [ConsoleError [VStr (str "Decryption failed:");
                      VErr (Error (str "Invalid encrypted file: too short to contain IV"))]]
  else decryptLogs blob ++
       [match openBlob (handle key) blob with
        | Some p => ConsoleLog [VStr (str "Decryption successful! Content length:");
                                VNum (N.of_nat (length (TextDecoder_decode p)));
                                VStr (str "characters")]
        | None => ConsoleError [VStr (str "Decryption failed:");
                                VErr (DOMException P (str "OperationError"))]
        end].

(** A text with no white space at its two ends. *)
Definition noSurroundingSpace (s : jsstring) : Prop :=
  match s with
  | [] => True
  | u :: _ => isWhiteSpace u = false /\ isWhiteSpace (last s 0) = false
  end.

(** Code units that are not white space and are neither "i" nor "k", the
    two ASCII letters that code units outside ASCII have as their lower
    case. *)
Definition plainUnit (c : N) : Prop :=
  isWhiteSpace c = false /\ c <> 0x6B /\ c <> 0x69.

(** * Properties *)

(** ** The platform model against the test vectors of its standards *)

Example sha256_constants :
  length Sha256.primes = 64%nat /\ last Sha256.primes 0 = 311 /\
  length Sha256.K = 64%nat /\ nth 0 Sha256.K 0 = 0x428a2f98 /\
  last Sha256.K 0 = 0xc67178f2 /\ Sha256.sa Sha256.H0 = 0x6a09e667.
Proof. vm_compute. repeat split. Qed.

Example sha256_empty :
  be_value (Sha256.sha256 []) =
  0xe3b0c44298fc1c149afbf4c8996fb92427ae41e4649b934ca495991b7852b855.
Proof. vm_compute. reflexivity. Qed.

Example sha256_abc :
  be_value (Sha256.sha256 (ascii_bytes "abc")) =
  0xba7816bf8f01cfea414140de5dae2223b00361a396177a9cb410ff61f20015ad.
Proof. vm_compute. reflexivity. Qed.

Example sha256_two_blocks :
  be_value (Sha256.sha256
              (ascii_bytes "abcdbcdecdefdefgefghfghighijhijkijkljklmklmnlmnomnopnopq")) =
  0x248d6a61d20638b8e5c026930c3e6039a33ce45964ff2167f6ecedd419db06c1.
Proof. vm_compute. reflexivity. Qed.

Example hmac_sha256_fox :
  be_value (Pbkdf2.hmac_sha256 (ascii_bytes "key")
              (ascii_bytes "The quick brown fox jumps over the lazy dog")) =
  0xf7bc83f430538424b13298e6aa6fb143ef4d59a14946175997479dbc2d1a3cd8.
Proof. vm_compute. reflexivity. Qed.

Example hmac_sha256_long_key :
  be_value (Pbkdf2.hmac_sha256 (repeat 107 100) (ascii_bytes "msg")) =
  0xbd56a1782c2830e8abc6ed866a57a1230661e650b84c62f7ee3accc5fa5af491.
Proof. vm_compute. reflexivity. Qed.

Example pbkdf2_one_iteration :
  be_value (Pbkdf2.pbkdf2_hmac_sha256 (ascii_bytes "password") (ascii_bytes "salt") 1 32) =
  0x120fb6cffcf8b32c43e7225256c4f837a86548c92ccc35480805987cb70be17b.
Proof. vm_compute. reflexivity. Qed.

Example pbkdf2_two_iterations :
  be_value (Pbkdf2.pbkdf2_hmac_sha256 (ascii_bytes "password") (ascii_bytes "salt") 2 32) =
  0xae4d0c95af6b46d32d0adff928f06dd02a303f8ef3c251dfd6e2d85a95474c43.
Proof. vm_compute. reflexivity. Qed.

Example pbkdf2_empty_inputs :
  be_value (Pbkdf2.pbkdf2_hmac_sha256 [] [] 3 32) =
  0xb372796454d37ac042a195b62eeb7cfed38ddd92f757e2fee04210df03ac1d2e.
Proof. vm_compute. reflexivity. Qed.

Example aes_sbox_values :
  firstn 4 Aes.sbox_table = [0x63; 0x7c; 0x77; 0x7b] /\ Aes.sbox 0x53 = 0xed.
Proof. vm_compute. auto. Qed.

Example aes128_fips197 :
  be_value (Aes.encrypt_block (be_bytes 16 0x000102030405060708090a0b0c0d0e0f)
                              (be_bytes 16 0x00112233445566778899aabbccddeeff)) =
  0x69c4e0d86a7b0430d8cdb78070b4c55a.
Proof. vm_compute. reflexivity. Qed.

Example aes192_fips197 :
  be_value (Aes.encrypt_block (be_bytes 24 0x000102030405060708090a0b0c0d0e0f1011121314151617)
                              (be_bytes 16 0x00112233445566778899aabbccddeeff)) =
  0xdda97ca4864cdfe06eaf70a0ec0d7191.
Proof. vm_compute. reflexivity. Qed.

Example aes256_fips197 :
  be_value (Aes.encrypt_block
              (be_bytes 32 0x000102030405060708090a0b0c0d0e0f101112131415161718191a1b1c1d1e1f)
              (be_bytes 16 0x00112233445566778899aabbccddeeff)) =
  0x8ea2b7ca516745bfeafc49904b496089.
Proof. vm_compute. reflexivity. Qed.

Example gcm_empty_plaintext :
  be_value (Gcm.encrypt (repeat 0 32%nat) (repeat 0 12%nat) [] [] 16) =
  0x530f8afbc74536b9a963b4f1c4cb738b.
Proof. vm_compute. reflexivity. Qed.

Example gcm_one_block :
  be_value (Gcm.encrypt (repeat 0 32%nat) (repeat 0 12%nat) [] (repeat 0 16%nat) 16) =
  0xcea7403d4d606b6e074ec5d3baf39d18d0d1c8a799996bf0265b98b5d48ab919.
Proof. vm_compute. reflexivity. Qed.

Example gcm_partial_block :
  be_value (Gcm.encrypt (handle sampleKey) sampleNonce [] (map N.of_nat (seq 50 37)) 16) =
  0x7a28ea534fde6ea7045963d5e45a2abc0081424fcd2bbb3bed9ae005b5ecf519c6ba14951a572ad6a5645e2a8d26931f88154dbff4.
Proof. vm_compute. reflexivity. Qed.

Example gcm_associated_data_short_iv :
  be_value (Gcm.encrypt (handle sampleKey) (map N.of_nat (seq 0 8))
              (ascii_bytes "hdr-data-12345678901") (map N.of_nat (seq 50 37)) 16) =
  0x7b65c75972786979d278f81b9410ca787dc214efee1576c2a509848f2c9ecaec3ca9664185e8a54a1615c7c333f82794f094aaff5d.
Proof. vm_compute. reflexivity. Qed.

Example gcm_aes128_long_iv :
  be_value (Gcm.encrypt (map N.of_nat (seq 0 16)) (map N.of_nat (seq 0 20))
              (ascii_bytes "x") (ascii_bytes "hello") 16) =
  0x953559a6495e1e570d4646334bfd1a5b004702a9f4.
Proof. vm_compute. reflexivity. Qed.

Example blobFF_is_an_encryption :
  blobFF = sampleNonce ++ Gcm.encrypt (handle sampleKey) sampleNonce [] [0xFF] 16.
Proof. vm_compute. reflexivity. Qed.

Example openBlob_blobFF : openBlob (handle sampleKey) blobFF = Some [0xFF].
Proof. vm_compute. reflexivity. Qed.

Example openBlob_blobTampered : openBlob (handle sampleKey) blobTampered = None.
Proof. vm_compute. reflexivity. Qed.

Example decode_replaces_ill_formed :
  TextDecoder_decode [0xFF] = [0xFFFD] /\
  TextDecoder_decode [0xE0; 0x80] = [0xFFFD; 0xFFFD] /\
  TextDecoder_decode [0xF0; 0x90; 0x80] = [0xFFFD] /\
  TextDecoder_decode [0xED; 0xA0; 0x80] = [0xFFFD; 0xFFFD; 0xFFFD] /\
  TextDecoder_decode [0xF0; 0x9F; 0x98; 0x61] = [0xFFFD; 0x61] /\
  TextDecoder_decode [0xC2; 0x41; 0x42] = [0xFFFD; 0x41; 0x42].
Proof. vm_compute. repeat split. Qed.

Example decode_well_formed :
  TextDecoder_decode [0x68; 0xC3; 0xA9; 0x20; 0xE2; 0x82; 0xAC; 0xF0; 0x9F; 0x98; 0x80] =
    [0x68; 0xE9; 0x20; 0x20AC; 0xD83D; 0xDE00] /\
  TextDecoder_decode ([0xEF; 0xBB; 0xBF] ++ ascii_bytes "hi") = str "hi".
Proof. vm_compute. split; reflexivity. Qed.

Example encode_examples :
  TextEncoder_encode [0x68; 0xE9; 0x20; 0x20AC; 0xD83D; 0xDE00] =
    [0x68; 0xC3; 0xA9; 0x20; 0xE2; 0x82; 0xAC; 0xF0; 0x9F; 0x98; 0x80] /\
  TextEncoder_encode [0xD800; 0x41; 0xDC00] = [0xEF; 0xBF; 0xBD; 0x41; 0xEF; 0xBF; 0xBD] /\
  TextEncoder_encode (str "2020123|987654321") = ascii_bytes "2020123|987654321".
Proof. vm_compute. repeat split. Qed.

Example string_examples :
  trim (str "  a b  ") = str "a b" /\
  toStringRadix 16 255 = str "ff" /\ toStringRadix 16 0 = str "0" /\
  toStringRadix 10 404 = str "404" /\ toStringRadix 16 4096 = str "1000" /\
  padStart (str "a") 2 (str "0") = str "0a" /\
  includes (str "Invalid encrypted file: too short to contain IV") (str "too short") = true /\
  toLowerCase (str "<!DOCTYPE Html>") = str "<!doctype html>".
Proof. vm_compute. repeat split. Qed.


(** ** Text encoding: decoding gives back what was encoded *)

Lemma all_below_spec n f : all_below n f = true -> forall i, i < n -> f i = true.
Proof.
  unfold all_below.
  set (g := fun s : bool * N => (fst s && f (snd s), N.succ (snd s))).
  assert (H : forall m, snd (N.iter m g (true, 0)) = m /\
                        (fst (N.iter m g (true, 0)) = true -> forall i, i < m -> f i = true)).
  { intros m. induction m as [|m IH] using N.peano_ind.
    - split; [reflexivity|]. intros _ i Hi. lia.
    - rewrite N.iter_succ. destruct IH as [IH1 IH2].
      destruct (N.iter m g (true, 0)) as [ok k]. cbn [fst snd g] in *. subst k.
      split; [reflexivity|]. intros Hok i Hi.
      apply andb_true_iff in Hok. destruct Hok as [Hok Hf].
      destruct (N.eq_dec i m) as [->|Hne]; [exact Hf|]. apply IH2; [exact Hok | lia]. }
  intros Hall. apply (proj2 (H n)). exact Hall.
Qed.

Lemma leading_checks_all : all_below 0x4400 leading_checks = true.
Proof. vm_compute. reflexivity. Qed.

Lemma trailing_checks_all : all_below 64 trailing_checks = true.
Proof. vm_compute. reflexivity. Qed.

(** A number is its bits above the lowest six, shifted back, and its lowest
    six bits. *)
Lemma lor_shiftl_land cp : N.lor (N.shiftl (N.shiftr cp 6) 6) (N.land cp 0x3F) = cp.
Proof.
  apply N.bits_inj. intros n. rewrite N.lor_spec, N.land_spec.
  change 0x3F with (N.ones 6).
  destruct (N.lt_ge_cases n 6) as [H|H].
  - rewrite N.shiftl_spec_low by exact H. rewrite N.ones_spec_low by exact H.
    rewrite andb_true_r. reflexivity.
  - rewrite N.shiftl_spec_high' by exact H. rewrite N.shiftr_spec'.
    rewrite N.ones_spec_high by exact H. rewrite andb_false_r, orb_false_r.
    f_equal. lia.
Qed.

Lemma shiftr6_lt cp q : cp < 64 * q -> N.shiftr cp 6 < q.
Proof.
  intros H. rewrite N.shiftr_div_pow2. change (2 ^ 6) with 64.
  apply N.Div0.div_lt_upper_bound. exact H.
Qed.

Lemma shiftr6_ge cp q : 64 * q <= cp -> q <= N.shiftr cp 6.
Proof.
  intros H. rewrite N.shiftr_div_pow2. change (2 ^ 6) with 64.
  apply N.div_le_lower_bound; [discriminate | exact H].
Qed.

Lemma utf8_bytes_leading cp :
  0x80 <= cp ->
  utf8_bytes cp = leading_bytes (N.shiftr cp 6) ++ [N.lor 0x80 (N.land cp 0x3F)].
Proof.
  intros H. unfold utf8_bytes, leading_bytes.
  rewrite !N.shiftr_shiftr. cbn [N.add Pos.add Pos.succ].
  assert (E1 : (cp <? 0x80) = false) by (apply N.ltb_ge; exact H). rewrite E1.
  destruct (N.ltb_spec cp 0x800) as [H2|H2].
  - assert (E2 : (N.shiftr cp 6 <? 0x20) = true)
      by (apply N.ltb_lt, shiftr6_lt; exact H2).
    rewrite E2. reflexivity.
  - assert (E2 : (N.shiftr cp 6 <? 0x20) = false)
      by (apply N.ltb_ge, shiftr6_ge; exact H2).
    rewrite E2.
    destruct (N.ltb_spec cp 0x10000) as [H3|H3].
    + assert (E3 : (N.shiftr cp 6 <? 0x400) = true)
        by (apply N.ltb_lt, shiftr6_lt; exact H3).
      rewrite E3. reflexivity.
    + assert (E3 : (N.shiftr cp 6 <? 0x400) = false)
        by (apply N.ltb_ge, shiftr6_ge; exact H3).
      rewrite E3. reflexivity.
Qed.

Lemma utf8_decode_step st b l :
  utf8_decode st (b :: l) = fst (utf8_step st b) ++ utf8_decode (snd (utf8_step st b)) l.
Proof.
  destruct st as [|cp needed lower upper]; cbn [utf8_decode utf8_step]; [reflexivity|].
  destruct ((lower <=? b) && (b <=? upper)); [|reflexivity].
  destruct needed as [|[|n]]; reflexivity.
Qed.

Lemma utf8_decode_run l st rest :
  utf8_decode st (l ++ rest) =
  fst (utf8_run st l) ++ utf8_decode (snd (utf8_run st l)) rest.
Proof.
  revert st. induction l as [|b l IH]; intros st; [reflexivity|].
  cbn [app utf8_run]. rewrite utf8_decode_step, IH.
  destruct (utf8_step st b) as [out st']. cbn [fst snd].
  destruct (utf8_run st' l) as [out' st'']. cbn [fst snd].
  rewrite app_assoc. reflexivity.
Qed.

(** The bytes of a scalar value, followed by any bytes, decode to the scalar
    value, followed by what the other bytes decode to. *)
Lemma utf8_decode_bytes cp rest :
  isScalarValue cp ->
  utf8_decode Between (utf8_bytes cp ++ rest) = cp :: utf8_decode Between rest.
Proof.
  intros H. destruct (N.lt_ge_cases cp 0x80) as [Hs|Hs].
  - unfold utf8_bytes. apply N.ltb_lt in Hs. rewrite Hs. apply N.ltb_lt in Hs.
    cbn [app utf8_decode]. unfold lead.
    assert (E : (cp <=? 0x7F) = true) by (apply N.leb_le; lia). rewrite E. reflexivity.
  - rewrite utf8_bytes_leading by exact Hs. rewrite <- app_assoc.
    rewrite utf8_decode_run.
    set (t := N.shiftr cp 6).
    assert (Ht : t < 0x4400) by (apply shiftr6_lt; destruct H; lia).
    pose proof (all_below_spec _ _ leading_checks_all t Ht) as Hl.
    unfold leading_checks in Hl.
    assert (Hr : ((2 <=? t) && ((t <? 0x360) || (0x380 <=? t))) = true).
    { apply andb_true_iff. split; [apply N.leb_le, shiftr6_ge; exact Hs|].
      apply orb_true_iff. destruct H as [H|[H _]].
      - left. apply N.ltb_lt, shiftr6_lt. exact H.
      - right. apply N.leb_le, shiftr6_ge. exact H. }
    rewrite Hr in Hl. cbn [negb orb] in Hl.
    destruct (utf8_run Between (leading_bytes t)) as [[|? ?] [|c needed lo hi]];
      try discriminate.
    rewrite !andb_true_iff in Hl. destruct Hl as [[[Hl1 Hl2] Hl3] Hl4].
    apply N.eqb_eq in Hl1, Hl3, Hl4. apply Nat.eqb_eq in Hl2. subst c needed lo hi.
    cbn [fst snd app utf8_decode].
    assert (Hd : N.land cp 0x3F < 64).
    { change 0x3F with (N.ones 6). rewrite N.land_ones. apply N.mod_lt. discriminate. }
    pose proof (all_below_spec _ _ trailing_checks_all _ Hd) as Hc.
    unfold trailing_checks in Hc. apply andb_true_iff in Hc. destruct Hc as [Hc1 Hc2].
    rewrite Hc1. apply N.eqb_eq in Hc2. rewrite Hc2.
    subst t. rewrite lor_shiftl_land. reflexivity.
Qed.

(** Decoding gives back the scalar values that were encoded. *)
Lemma utf8_decode_encode cps :
  Forall isScalarValue cps -> utf8_decode Between (flat_map utf8_bytes cps) = cps.
Proof.
  induction 1 as [|cp cps H _ IH]; [reflexivity|].
  cbn [flat_map]. rewrite utf8_decode_bytes by exact H. rewrite IH. reflexivity.
Qed.

Lemma surrogate_pair h l :
  isHighSurrogate h = true -> isLowSurrogate l = true ->
  isScalarValue (0x10000 + (h - 0xD800) * 0x400 + (l - 0xDC00)) /\
  codeUnits (0x10000 + (h - 0xD800) * 0x400 + (l - 0xDC00)) = [h; l].
Proof.
  unfold isHighSurrogate, isLowSurrogate. intros Hh Hl.
  apply andb_true_iff in Hh, Hl. rewrite !N.leb_le in Hh, Hl.
  destruct Hh as [H1 H2]. destruct Hl as [L1 L2].
  set (x := h - 0xD800). set (y := l - 0xDC00).
  assert (Hx : x < 0x400) by (subst x; lia). assert (Hy : y < 0x400) by (subst y; lia).
  split; [right; lia|].
  unfold codeUnits.
  assert (E : (0x10000 + x * 0x400 + y <? 0x10000) = false) by (apply N.ltb_ge; lia).
  rewrite E.
  replace (0x10000 + x * 0x400 + y - 0x10000) with (x * 0x400 + y) by lia.
  rewrite N.shiftr_div_pow2. change 0x3FF with (N.ones 10). rewrite N.land_ones.
  change (2 ^ 10) with 0x400.
  assert (Q : (x * 0x400 + y) / 0x400 = x) by (symmetry; apply (N.div_unique _ 0x400 x y); lia).
  assert (R : (x * 0x400 + y) mod 0x400 = y) by (symmetry; apply (N.mod_unique _ 0x400 x y); lia).
  rewrite Q, R. subst x y. f_equal; [lia | f_equal; lia].
Qed.

Lemma scalarValues_wellFormed s :
  WellFormed s ->
  Forall isScalarValue (scalarValues s) /\ flat_map codeUnits (scalarValues s) = s.
Proof.
  induction 1 as [|u s Hu Hh Hl Hs [IH1 IH2]|h l s Hh Hl Hs [IH1 IH2]].
  - split; [constructor | reflexivity].
  - cbn [scalarValues]. rewrite Hh, Hl. cbn [flat_map]. split.
    + constructor; [|exact IH1].
      unfold isHighSurrogate, isLowSurrogate in *.
      apply andb_false_iff in Hh, Hl. rewrite !N.leb_gt in *.
      unfold isScalarValue. lia.
    + unfold codeUnits at 1. apply N.ltb_lt in Hu. rewrite Hu. cbn [app]. rewrite IH2. reflexivity.
  - cbn [scalarValues]. rewrite Hh, Hl. cbn [flat_map].
    destruct (surrogate_pair h l Hh Hl) as [Sc Cu]. split.
    + constructor; assumption.
    + rewrite Cu. cbn [app]. rewrite IH2. reflexivity.
Qed.

(** The encoder is injective on well-formed strings. *)
Lemma TextEncoder_encode_injective s1 s2 :
  WellFormed s1 -> WellFormed s2 ->
  TextEncoder_encode s1 = TextEncoder_encode s2 -> s1 = s2.
Proof.
  intros W1 W2 E. unfold TextEncoder_encode in E.
  destruct (scalarValues_wellFormed s1 W1) as [S1 C1].
  destruct (scalarValues_wellFormed s2 W2) as [S2 C2].
  apply (f_equal (utf8_decode Between)) in E.
  rewrite !utf8_decode_encode in E by assumption.
  rewrite <- C1, <- C2, E. reflexivity.
Qed.

Lemma WellFormed_app s1 s2 : WellFormed s1 -> WellFormed s2 -> WellFormed (s1 ++ s2).
Proof.
  induction 1; intros W2; cbn [app]; [exact W2 | |].
  - apply wf_unit; auto.
  - apply wf_pair; auto.
Qed.

Lemma utf8_decode_mark l :
  utf8_decode Between (0xEF :: 0xBB :: 0xBF :: l) = 0xFEFF :: utf8_decode Between l.
Proof. reflexivity. Qed.

Lemma stripBOM_bytes cp rest :
  isScalarValue cp -> cp <> 0xFEFF ->
  stripBOM (utf8_bytes cp ++ rest) = utf8_bytes cp ++ rest.
Proof.
  intros H Hne. pose proof (utf8_decode_bytes cp rest H) as D.
  unfold stripBOM.
  destruct (utf8_bytes cp ++ rest) as [|b0 [|b1 [|b2 l]]]; try reflexivity.
  destruct ((b0 =? 0xEF) && (b1 =? 0xBB) && (b2 =? 0xBF)) eqn:T; [|reflexivity].
  exfalso. rewrite !andb_true_iff, !N.eqb_eq in T. destruct T as [[-> ->] ->].
  rewrite utf8_decode_mark in D. apply Hne. congruence.
Qed.

(** For a well-formed string that does not begin with U+FEFF, decoding the
    encoding gives the string back. *)
Lemma TextDecoder_decode_encode s :
  WellFormed s -> hd 0 s <> 0xFEFF -> TextDecoder_decode (TextEncoder_encode s) = s.
Proof.
  intros W Hm. unfold TextDecoder_decode, TextEncoder_encode.
  destruct (scalarValues_wellFormed s W) as [Sc Cu].
  assert (E : stripBOM (flat_map utf8_bytes (scalarValues s)) =
              flat_map utf8_bytes (scalarValues s)).
  { destruct W as [|u s Hu Hh Hl W|h l s Hh Hl W]; [reflexivity| |];
      cbn [scalarValues] in Sc |- *; rewrite Hh, Hl in Sc |- *; cbn [flat_map];
      apply stripBOM_bytes; try exact (Forall_inv Sc); [exact Hm|].
    unfold isHighSurrogate, isLowSurrogate in Hh, Hl.
    apply andb_true_iff in Hh, Hl. rewrite !N.leb_le in Hh, Hl.
    intros F.
    assert (F' : (h - 0xD800) * 0x400 + (l - 0xDC00) + 0x10000 = 0xFEFF) by lia.
    lia. }
  rewrite E, utf8_decode_encode by exact Sc. exact Cu.
Qed.

Example decode_encode_example :
  TextDecoder_decode (TextEncoder_encode (str "  <!DOCTYPE html><p>hi</p>")) =
  str "  <!DOCTYPE html><p>hi</p>".
Proof. vm_compute. reflexivity. Qed.

(** ** The authenticated decryptor *)

Arguments Gcm.decrypt : simpl never.
Arguments Sha256.sha256 : simpl never.
Arguments Pbkdf2.pbkdf2_hmac_sha256 : simpl never.
Arguments TextDecoder_decode : simpl never.
Arguments TextEncoder_encode : simpl never.

Lemma eqb_list_refl : forall a, eqb_list a a = true.
Proof. induction a; simpl; auto. rewrite N.eqb_refl. auto. Qed.

Lemma eqb_list_eq : forall a b, eqb_list a b = true <-> a = b.
Proof.
  induction a as [|x a IH]; destruct b as [|y b]; simpl; split; intros H; try easy.
  - apply andb_true_iff in H. destruct H as [H1 H2].
    apply N.eqb_eq in H1. apply IH in H2. subst. reflexivity.
  - inversion H; subst. rewrite N.eqb_refl. apply eqb_list_refl.
Qed.

(** The run of [decrypt] on a blob that is too short. *)
Lemma decrypt_short P key blob w :
  byteLength blob < 12 ->
  Crypto.decrypt P key blob w =
  (Thrown MalformedBlob,
   mkWorld (console w ++
            [ConsoleError [VStr (str "Decryption failed:");
                           VErr (Error (str "Invalid encrypted file: too short to contain IV"))]])
           (calls w) (dom w)).
Proof.
  intros H. unfold Crypto.decrypt, try_catch, bind at 1.
  assert (E : (byteLength blob <? Crypto.GCM_IV_LENGTH) = true) by (apply N.ltb_lt; exact H).
  rewrite E. reflexivity.
Qed.

(** The run of [decrypt] on a blob that holds a nonce: one request to the
    platform, whose outcome decides. *)
Lemma decrypt_long P key blob w :
  12 <= byteLength blob ->
  Crypto.decrypt P key blob w =
  match subtle_decrypt P (decryptParams blob) key (skipn 12 blob)
          (mkWorld (console w ++ decryptLogs blob) (calls w) (dom w)) with
  | (Returned p, w') =>
      (Returned (TextDecoder_decode p),
       mkWorld (console w' ++
                [ConsoleLog [VStr (str "Decryption successful! Content length:");
                             VNum (N.of_nat (length (TextDecoder_decode p)));
                             VStr (str "characters")]])
               (calls w') (dom w'))
  | (Thrown e, w') =>
      (Thrown (if eqb_list (name e) (str "OperationError") then AuthenticationFailure
               else if includes (message e) (str "too short") then MalformedBlob
               else Error (str "Decryption failed: " ++ message e)),
       mkWorld (console w' ++ [ConsoleError [VStr (str "Decryption failed:"); VErr e]])
               (calls w') (dom w'))
  end.
Proof.
  intros H. unfold Crypto.decrypt, try_catch, bind at 1.
  assert (E : (byteLength blob <? Crypto.GCM_IV_LENGTH) = false) by (apply N.ltb_ge; exact H).
  rewrite E. cbn -[subtle_decrypt str eqb_list includes TextDecoder_decode skipn firstn].
  repeat rewrite <- app_assoc. cbn [app].
  unfold bind at 1.
  change (subtle_decrypt P _ key _ _)
    with (subtle_decrypt P (decryptParams blob) key (skipn 12 blob)
            (mkWorld (console w ++ decryptLogs blob) (calls w) (dom w))).
  destruct (subtle_decrypt P (decryptParams blob) key (skipn 12 blob) _) as [[p|e] w'].
  - reflexivity.
  - destruct (eqb_list (name e) (str "OperationError")); [reflexivity|].
    destruct (includes (message e) (str "too short")); reflexivity.
Qed.

(** The request is recorded whatever the key. *)
Lemma subtle_decrypt_calls P params key data w :
  calls (snd (subtle_decrypt P params key data w)) =
  calls w ++ [SubtleDecrypt params key data].
Proof.
  unfold subtle_decrypt, bind, request. cbn [fst snd].
  repeat match goal with
         | |- context [if ?c then _ else _] => destruct c
         | |- context [match ?c with Some _ => _ | None => _ end] => destruct c
         end; reflexivity.
Qed.

(** What the platform makes of the request of [decrypt], for a usable key. *)
Lemma subtle_decrypt_openBlob P key blob w :
  usableKey key -> 12 <= byteLength blob ->
  subtle_decrypt P (decryptParams blob) key (skipn 12 blob) w =
  (match openBlob (handle key) blob with
   | Some p => Returned p
   | None => Thrown (DOMException P (str "OperationError"))
   end,
   mkWorld (console w) (calls w ++ [SubtleDecrypt (decryptParams blob) key (skipn 12 blob)])
           (dom w)).
Proof.
  intros [Ha Hu] H. unfold subtle_decrypt, bind, request.
  cbn [gcm_name decryptParams tagLength additionalData iv].
  rewrite Ha, eqb_list_refl, Hu. cbn [negb memberN existsb N.eqb Pos.eqb orb].
  unfold openBlob, byteLength in *.
  rewrite length_skipn.
  destruct (Nat.ltb_spec (length blob) 28) as [Hs|Hs].
  - assert (E : (8 * N.of_nat (length blob - 12) <? 128) = true) by (apply N.ltb_lt; lia).
    rewrite E. reflexivity.
  - assert (E : (8 * N.of_nat (length blob - 12) <? 128) = false) by (apply N.ltb_ge; lia).
    rewrite E.
    change (N.to_nat (128 / 8)) with 16%nat.
    rewrite skipn_skipn.
    replace (length blob - 12 - 16)%nat with (length blob - 28)%nat by lia.
    replace (length blob - 28 + 12)%nat with (length blob - 16)%nat by lia.
    destruct (Gcm.decrypt _ _ _ _ _); reflexivity.
Qed.

(** The outcome of [decrypt] under a usable key, by the length of the blob
    and the verdict of the cipher. *)
Lemma decrypt_outcome P key blob w :
  usableKey key ->
  fst (Crypto.decrypt P key blob w) =
  if byteLength blob <? 12 then Thrown MalformedBlob
  else match openBlob (handle key) blob with
       | Some p => Returned (TextDecoder_decode p)
       | None => Thrown AuthenticationFailure
       end.
Proof.
  intros Hk. destruct (N.ltb_spec (byteLength blob) 12) as [H|H].
  - rewrite decrypt_short by exact H. reflexivity.
  - rewrite decrypt_long by exact H.
    rewrite subtle_decrypt_openBlob by assumption.
    destruct (openBlob (handle key) blob); reflexivity.
Qed.

(** What [decrypt] writes to the console under a usable key; the key and
    the content of the blob show only through the verdict of the cipher. *)
Lemma decrypt_console P key blob w :
  usableKey key -> 12 <= byteLength blob ->
  console (snd (Crypto.decrypt P key blob w)) =
  console w ++ decryptLogs blob ++
  [match openBlob (handle key) blob with
   | Some p => ConsoleLog [VStr (str "Decryption successful! Content length:");
                           VNum (N.of_nat (length (TextDecoder_decode p)));
                           VStr (str "characters")]
   | None => ConsoleError [VStr (str "Decryption failed:");
                           VErr (DOMException P (str "OperationError"))]
   end].
Proof.
  intros Hk H. rewrite decrypt_long by exact H.
  rewrite subtle_decrypt_openBlob by assumption.
  destruct (openBlob (handle key) blob); cbn [snd console]; rewrite <- app_assoc; reflexivity.
Qed.

Example error_kinds_differ : MalformedBlob <> AuthenticationFailure.
Proof. discriminate. Qed.

(** C2: a blob of fewer than 12 bytes makes [decrypt] fail with the
    MalformedBlob error, and the run makes no request to the platform: the
    cipher is not invoked.  A run of [decrypt] that makes a request is a run
    on a blob of at least 12 bytes. *)
Theorem decrypt_rejects_short_blob :
  forall P key blob w,
    byteLength blob < 12 ->
    fst (Crypto.decrypt P key blob w) = Thrown MalformedBlob /\
    calls (snd (Crypto.decrypt P key blob w)) = calls w /\
    forall blob',
      calls (snd (Crypto.decrypt P key blob' w)) <> calls w -> 12 <= byteLength blob'.
Proof.
  intros P key blob w H. rewrite decrypt_short by exact H.
  split; [reflexivity|]. split; [reflexivity|].
  intros blob' Hc. destruct (N.lt_ge_cases (byteLength blob') 12) as [Hs|Hs]; [|exact Hs].
  exfalso. apply Hc. rewrite decrypt_short by exact Hs. reflexivity.
Qed.

Lemma decrypt_rejects_short_blob_witness :
  byteLength [1; 2; 3] < 12 /\
  fst (Crypto.decrypt offlinePlatform sampleKey [1; 2; 3] initialWorld) = Thrown MalformedBlob /\
  calls (snd (Crypto.decrypt offlinePlatform sampleKey [1; 2; 3] initialWorld)) = [].
Proof.
  split; [reflexivity|].
  pose proof (decrypt_rejects_short_blob offlinePlatform sampleKey [1; 2; 3] initialWorld
                eq_refl) as [H1 [H2 _]].
  split; [exact H1 | exact H2].
Defined.

(** C3: on a blob of at least 12 bytes, [decrypt] makes one request to the
    cipher: AES-GCM with the first 12 bytes of the blob as the nonce, a tag
    length of 128 bits and no associated data, on all the bytes after the
    nonce; nonce and data make up the blob, so that the tag is passed along
    with the ciphertext.  Under a key that the cipher accepts the outcome is
    that of authenticated decryption with the last 16 bytes as the tag. *)
Theorem decrypt_splits_nonce_and_ciphertext :
  forall P key blob w,
    12 <= byteLength blob ->
    calls (snd (Crypto.decrypt P key blob w)) =
      calls w ++ [SubtleDecrypt (mkAesGcmParams (str "AES-GCM") (firstn 12 blob) None (Some 128))
                                key (skipn 12 blob)] /\
    length (firstn 12 blob) = 12%nat /\
    firstn 12 blob ++ skipn 12 blob = blob /\
    (usableKey key ->
     fst (Crypto.decrypt P key blob w) =
     match openBlob (handle key) blob with
     | Some p => Returned (TextDecoder_decode p)
     | None => Thrown AuthenticationFailure
     end).
Proof.
  intros P key blob w H. repeat split.
  - rewrite decrypt_long by exact H.
    pose proof (subtle_decrypt_calls P (decryptParams blob) key (skipn 12 blob)
                  (mkWorld (console w ++ decryptLogs blob) (calls w) (dom w))) as Hc.
    destruct (subtle_decrypt P (decryptParams blob) key (skipn 12 blob) _) as [[p|e] w'];
      exact Hc.
  - apply firstn_length_le. unfold byteLength in H. lia.
  - apply firstn_skipn.
  - intros Hk. rewrite decrypt_outcome by exact Hk.
    apply N.ltb_ge in H. rewrite H. reflexivity.
Qed.

Lemma decrypt_splits_nonce_and_ciphertext_witness :
  12 <= byteLength blobFF /\
  calls (snd (Crypto.decrypt offlinePlatform sampleKey blobFF initialWorld)) =
    [SubtleDecrypt (mkAesGcmParams (str "AES-GCM") sampleNonce None (Some 128)) sampleKey
                   ([0xb7] ++ be_bytes 16 0x08812d5ee9d7346e035f6b1409cee613)].
Proof.
  split; [vm_compute; discriminate|].
  refine (proj1 (decrypt_splits_nonce_and_ciphertext offlinePlatform sampleKey blobFF
                   initialWorld _)).
  vm_compute; discriminate.
Defined.






(** C6: under a key that the cipher accepts, a blob of at least 12 bytes
    whose tag does not verify makes [decrypt] fail with the
    AuthenticationFailure error, whatever the key and the blob; any other
    such failure, under another key or on another blob, throws the same
    error, and writes the same to the console when the blobs have the same
    length. *)
Theorem decrypt_authentication_failure :
  forall P key blob w,
    usableKey key ->
    12 <= byteLength blob ->
    openBlob (handle key) blob = None ->
    fst (Crypto.decrypt P key blob w) = Thrown AuthenticationFailure /\
    forall key' blob',
      usableKey key' -> 12 <= byteLength blob' -> openBlob (handle key') blob' = None ->
      fst (Crypto.decrypt P key' blob' w) = fst (Crypto.decrypt P key blob w) /\
      (length blob' = length blob ->
       console (snd (Crypto.decrypt P key' blob' w)) =
       console (snd (Crypto.decrypt P key blob w))).
Proof.
  intros P key blob w Hk H Ho.
  assert (G : forall k b, usableKey k -> 12 <= byteLength b -> openBlob (handle k) b = None ->
                          fst (Crypto.decrypt P k b w) = Thrown AuthenticationFailure).
  { intros k b Hk' H' Ho'. rewrite decrypt_outcome by exact Hk'.
    apply N.ltb_ge in H'. rewrite H', Ho'. reflexivity. }
  split; [apply G; assumption|].
  intros key' blob' Hk' H' Ho'. split.
  - rewrite !G by assumption. reflexivity.
  - intros Hl. rewrite !decrypt_console by assumption. rewrite Ho, Ho'.
    unfold decryptLogs, byteLength. rewrite !length_firstn, !length_skipn, Hl. reflexivity.
Qed.

Lemma decrypt_authentication_failure_witness :
  usableKey sampleKey /\ 12 <= byteLength blobTampered /\
  openBlob (handle sampleKey) blobTampered = None /\
  openBlob (handle otherKey) blobFF = None /\
  fst (Crypto.decrypt offlinePlatform sampleKey blobTampered initialWorld) =
    Thrown AuthenticationFailure /\
  fst (Crypto.decrypt offlinePlatform otherKey blobFF initialWorld) =
    fst (Crypto.decrypt offlinePlatform sampleKey blobTampered initialWorld).
Proof.
  assert (U : usableKey sampleKey) by (split; reflexivity).
  assert (U' : usableKey otherKey) by (split; reflexivity).
  assert (L : 12 <= byteLength blobTampered) by (vm_compute; discriminate).
  assert (L' : 12 <= byteLength blobFF) by (vm_compute; discriminate).
  assert (O : openBlob (handle sampleKey) blobTampered = None) by (vm_compute; reflexivity).
  assert (O' : openBlob (handle otherKey) blobFF = None) by (vm_compute; reflexivity).
  pose proof (decrypt_authentication_failure offlinePlatform sampleKey blobTampered
                initialWorld U L O) as [H1 H2].
  split; [exact U|]. split; [exact L|]. split; [exact O|]. split; [exact O'|].
  split; [exact H1|]. exact (proj1 (H2 otherKey blobFF U' L' O')).
Defined.

(** ** Bytes, digests and hexadecimal *)

Lemma below_256 (f : N -> bool) :
  forallb f (map N.of_nat (seq 0 256)) = true -> forall b, b < 256 -> f b = true.
Proof.
  intros H b Hb. rewrite forallb_forall in H. apply H.
  rewrite <- (N2Nat.id b). apply in_map. apply in_seq. lia.
Qed.

Lemma land_byte a : N.land a 0xFF < 256.
Proof.
  change 0xFF with (N.ones 8). rewrite N.land_ones.
  apply N.mod_lt. discriminate.
Qed.

Lemma be_bytes_all_bytes n x : all_bytes (be_bytes n x).
Proof. induction n; simpl; constructor; [apply land_byte | assumption]. Qed.

Lemma be_bytes_length n x : length (be_bytes n x) = n.
Proof. induction n; simpl; congruence. Qed.

Lemma sha256_all_bytes m : all_bytes (Sha256.sha256 m).
Proof.
  unfold Sha256.sha256, Sha256.output, all_bytes.
  repeat (apply Forall_app; split); apply be_bytes_all_bytes.
Qed.

Lemma sha256_length m : length (Sha256.sha256 m) = 32%nat.
Proof.
  unfold Sha256.sha256, Sha256.output.
  rewrite !length_app, !be_bytes_length. reflexivity.
Qed.

(** The hexadecimal text that the scripts build for a byte is its two
    uppercase digits. *)
Lemma hex_of_byte b :
  b < 256 ->
  toUpperCase (padStart (toStringRadix 16 b) 2 (str "0")) =
  [hexDigit (b / 16); hexDigit (b mod 16)].
Proof.
  intros Hb. apply eqb_list_eq.
  revert b Hb. apply below_256. vm_compute. reflexivity.
Qed.

Lemma hashHexOf_hexUpper l : all_bytes l -> Crypto.hashHexOf l = hexUpper l.
Proof.
  induction 1 as [|b l Hb Hl IH]; [reflexivity|].
  unfold Crypto.hashHexOf, hexUpper, join in *. cbn [map concat flat_map].
  rewrite IH. rewrite (hex_of_byte b Hb). reflexivity.
Qed.

Lemma hexUpper_length l : length (hexUpper l) = (2 * length l)%nat.
Proof. induction l; simpl in *; lia. Qed.

Lemma hexUpper_digits l :
  all_bytes l -> Forall (fun u => In u (str "0123456789ABCDEF")) (hexUpper l).
Proof.
  assert (D : forall d, d < 16 -> In (hexDigit d) (str "0123456789ABCDEF")).
  { intros d Hd. unfold hexDigit. apply nth_In. cbn. lia. }
  induction 1 as [|b l Hb _ IH]; [constructor|].
  cbn [hexUpper flat_map app]. unfold is_byte in Hb.
  constructor; [apply D, N.Div0.div_lt_upper_bound; lia|].
  constructor; [apply D, N.mod_lt; lia | exact IH].
Qed.

Lemma xor_bytes_length a b : length a = length b -> length (xor_bytes a b) = length a.
Proof.
  revert b. induction a as [|x a IH]; destruct b as [|y b]; simpl; intros H; try easy.
  f_equal. apply IH. lia.
Qed.

Lemma hmac_length k m : length (Pbkdf2.hmac_sha256 k m) = 32%nat.
Proof. apply sha256_length. Qed.

Lemma pbkdf2_block_length p s c i : length (Pbkdf2.block p s c i) = 32%nat.
Proof.
  unfold Pbkdf2.block.
  set (Inv := fun ut : bytes * bytes => length (fst ut) = 32%nat /\ length (snd ut) = 32%nat).
  assert (H : Inv (N.iter (c - 1) (Pbkdf2.iterate p)
                     (Pbkdf2.hmac_sha256 p (s ++ be_bytes 4 i),
                      Pbkdf2.hmac_sha256 p (s ++ be_bytes 4 i)))).
  { apply N.iter_invariant.
    - intros [u t] [Hu Ht]. unfold Inv, Pbkdf2.iterate. cbn [fst snd] in *.
      split; [apply hmac_length|].
      rewrite xor_bytes_length; [exact Ht | rewrite hmac_length; exact Ht].
    - split; apply hmac_length. }
  exact (proj2 H).
Qed.

Lemma pbkdf2_key_length p s c : length (Pbkdf2.pbkdf2_hmac_sha256 p s c 32) = 32%nat.
Proof.
  unfold Pbkdf2.pbkdf2_hmac_sha256.
  change ((32 + 31) / 32)%nat with 1%nat. cbn [seq map concat].
  rewrite app_nil_r, firstn_all2; rewrite pbkdf2_block_length; auto.
Qed.

(** ** The steps of the pipeline *)

Lemma getEncryptedFilename_run P index id w :
  Crypto.getEncryptedFilename P index id w =
  (Returned (locator index id),
   mkWorld (console w)
           (calls w ++ [SubtleDigest (str "SHA-256")
                                     (TextEncoder_encode (index ++ str "|" ++ id))])
           (dom w)).
Proof.
  unfold Crypto.getEncryptedFilename, subtle_digest, bind, request, ret, locator.
  cbn -[str Sha256.sha256 TextEncoder_encode Crypto.hashHexOf].
  rewrite eqb_list_refl. rewrite hashHexOf_hexUpper by apply sha256_all_bytes.
  reflexivity.
Qed.

Lemma getHash_run P index w :
  Crypto.getHash P index w =
  (Returned (hexUpper (Sha256.sha256 (TextEncoder_encode index))),
   mkWorld (console w)
           (calls w ++ [SubtleDigest (str "SHA-256") (TextEncoder_encode index)])
           (dom w)).
Proof.
  unfold Crypto.getHash, subtle_digest, bind, request, ret.
  cbn -[str Sha256.sha256 TextEncoder_encode Crypto.hashHexOf].
  rewrite eqb_list_refl. rewrite hashHexOf_hexUpper by apply sha256_all_bytes.
  reflexivity.
Qed.

Lemma locator_length index id : length (locator index id) = 68%nat.
Proof.
  unfold locator. rewrite length_app, hexUpper_length, sha256_length. reflexivity.
Qed.

Lemma getKey_run P id index w :
  Crypto.getKey P id index w =
  (Returned (derivedKey id index),
   mkWorld (console w) (calls w ++ deriveCalls id index) (dom w)).
Proof.
  unfold Crypto.getKey, subtle_importKey, subtle_deriveKey, bind, request, ret.
  cbn -[Pbkdf2.pbkdf2_hmac_sha256 TextEncoder_encode app].
  rewrite <- app_assoc. reflexivity.
Qed.

Lemma derivedKey_usable id index : usableKey (derivedKey id index).
Proof. split; reflexivity. Qed.

Lemma fetchFile_run P filename w :
  Crypto.fetchFile P filename w =
  (fetchOutcome P (fileUrl filename),
   mkWorld (console w ++ [ConsoleLog [VStr (str "Fetching file from:"); VStr (fileUrl filename)]])
           (calls w ++ [Fetch (fileUrl filename)])
           (dom w)).
Proof.
  unfold Crypto.fetchFile, fetchOutcome, fetch, bind, request, console_log, arrayBuffer, fileUrl.
  cbn [console calls dom].
  destruct (network P _) as [e|r]; [reflexivity|].
  unfold ret, throw. destruct (ok r); reflexivity.
Qed.

Lemma decrypt_calls P key blob w :
  calls (snd (Crypto.decrypt P key blob w)) = calls w ++ decryptCalls key blob.
Proof.
  unfold decryptCalls. destruct (N.ltb_spec (byteLength blob) 12) as [H|H].
  - rewrite decrypt_short by exact H. cbn. rewrite app_nil_r. reflexivity.
  - rewrite decrypt_long by exact H.
    pose proof (subtle_decrypt_calls P (decryptParams blob) key (skipn 12 blob)
                  (mkWorld (console w ++ decryptLogs blob) (calls w) (dom w))) as Hc.
    destruct (subtle_decrypt P (decryptParams blob) key (skipn 12 blob) _) as [[p|e] w'];
      exact Hc.
Qed.

Lemma subtle_decrypt_dom P params key data w :
  dom (snd (subtle_decrypt P params key data w)) = dom w.
Proof.
  unfold subtle_decrypt, bind, request. cbn [fst snd].
  repeat match goal with
         | |- context [if ?c then _ else _] => destruct c
         | |- context [match ?c with Some _ => _ | None => _ end] => destruct c
         end; reflexivity.
Qed.

Lemma decrypt_dom P key blob w : dom (snd (Crypto.decrypt P key blob w)) = dom w.
Proof.
  destruct (N.ltb_spec (byteLength blob) 12) as [H|H].
  - rewrite decrypt_short by exact H. reflexivity.
  - rewrite decrypt_long by exact H.
    pose proof (subtle_decrypt_dom P (decryptParams blob) key (skipn 12 blob)
                  (mkWorld (console w ++ decryptLogs blob) (calls w) (dom w))) as Hc.
    destruct (subtle_decrypt P (decryptParams blob) key (skipn 12 blob) _) as [[p|e] w'];
      exact Hc.
Qed.

(** Under a usable key the outcome of [decrypt] does not depend on the world
    it runs in. *)
Lemma decrypt_fst P key blob w w' :
  usableKey key ->
  fst (Crypto.decrypt P key blob w) = fst (Crypto.decrypt P key blob w').
Proof. intros Hk. rewrite !decrypt_outcome by exact Hk. reflexivity. Qed.

Lemma displayContent_run content w :
  Crypto.displayContent content w =
  (Returned tt, mkWorld (console w) (calls w) (displayedDom content (dom w))).
Proof.
  unfold Crypto.displayContent, displayedDom, sandboxTokens, bind, update_dom.
  cbn [console calls dom].
  destruct (Crypto.isHtml content);
    cbn [console calls dom contentChildren set_contentChildren set_formDisplay
         set_containerExpanded];
    rewrite <- app_assoc; reflexivity.
Qed.

Lemma displayContentAlternative_run content w :
  CryptoAlternative.displayContent content w =
  (Returned tt, mkWorld (console w) (calls w) (displayedDomAlternative content (dom w))).
Proof.
  unfold CryptoAlternative.displayContent, displayedDomAlternative, bind, update_dom.
  destruct (Crypto.isHtml content); [reflexivity|].
  cbn [console calls dom contentChildren set_contentChildren set_formDisplay
       set_containerExpanded].
  rewrite <- app_assoc. reflexivity.
Qed.

Arguments Crypto.getEncryptedFilename : simpl never.
Arguments Crypto.getHash : simpl never.
Arguments Crypto.fetchFile : simpl never.
Arguments Crypto.getKey : simpl never.
Arguments Crypto.decrypt : simpl never.
Arguments Crypto.displayContent : simpl never.
Arguments CryptoAlternative.displayContent : simpl never.

(** ** The handlers *)

(** A run of the handler of crypto.js: it returns, and the page and the
    requests made are decided by the outcome of the fetch and then by the
    outcome of [decrypt]. *)
Lemma submitHandler_run P form w :
  let index := trim (Crypto.indexNumberValue form) in
  let id := trim (Crypto.idValue form) in
  fst (Crypto.submitHandler P form w) = Returned tt /\
  dom (snd (Crypto.submitHandler P form w)) =
  match fetchOutcome P (fileUrl (locator index id)) with
  | Thrown e => failedDom e (dom w)
  | Returned blob =>
      match fst (Crypto.decrypt P (derivedKey id index) blob initialWorld) with
      | Thrown e => failedDom e (dom w)
      | Returned content => releasedDom (displayedDom content (resetDom (dom w)))
      end
  end /\
  calls (snd (Crypto.submitHandler P form w)) =
  calls w ++
  [SubtleDigest (str "SHA-256") (TextEncoder_encode (index ++ str "|" ++ id));
   Fetch (fileUrl (locator index id))] ++
  match fetchOutcome P (fileUrl (locator index id)) with
  | Thrown e => []
  | Returned blob => deriveCalls id index ++ decryptCalls (derivedKey id index) blob
  end.
Proof.
  intros index id.
  remember (Crypto.submitHandler P form w) as run eqn:Hrun.
  unfold Crypto.submitHandler in Hrun. fold index id in Hrun.
  unfold try_finally, try_catch in Hrun.
  cbn -[str app trim] in Hrun.
  unfold bind at 1 in Hrun. rewrite getEncryptedFilename_run in Hrun.
  cbn -[str app trim] in Hrun. unfold bind at 1 in Hrun. rewrite fetchFile_run in Hrun.
  destruct (fetchOutcome P (fileUrl (locator index id))) as [blob|e].
  - cbn -[str app trim] in Hrun. unfold bind at 1 in Hrun. rewrite getKey_run in Hrun.
    cbn -[str app trim deriveCalls] in Hrun. unfold bind at 1 in Hrun.
    match type of Hrun with
    | context [Crypto.decrypt P ?k blob ?w1] =>
        pose proof (decrypt_fst P k blob w1 initialWorld (derivedKey_usable id index)) as Hf;
        pose proof (decrypt_dom P k blob w1) as Hd;
        pose proof (decrypt_calls P k blob w1) as Hc;
        destruct (Crypto.decrypt P k blob w1) as [[content|e] w2]
    end; cbn [fst snd calls dom] in Hf, Hd, Hc; rewrite <- Hf.
    + cbn -[str app trim deriveCalls] in Hrun. rewrite displayContent_run in Hrun.
      cbn -[str app trim deriveCalls] in Hrun. rewrite Hd, Hc in Hrun. subst run.
      cbn [fst snd calls dom]. repeat split.
      rewrite <- !app_assoc. reflexivity.
    + cbn -[str app trim deriveCalls] in Hrun. rewrite Hd, Hc in Hrun. subst run.
      cbn [fst snd calls dom]. repeat split.
      rewrite <- !app_assoc. reflexivity.
  - cbn -[str app trim] in Hrun. subst run. cbn [fst snd calls dom]. repeat split.
    rewrite <- !app_assoc. reflexivity.
Qed.

(** A run of the handler of crypto-alternative.js: the same, but that the
    file is asked for under the hash of the index alone. *)
Lemma submitHandlerAlternative_run P form w :
  let index := trim (Crypto.indexNumberValue form) in
  let id := trim (Crypto.idValue form) in
  let url := fileUrl (hexUpper (Sha256.sha256 (TextEncoder_encode index))) in
  fst (CryptoAlternative.submitHandler P form w) = Returned tt /\
  dom (snd (CryptoAlternative.submitHandler P form w)) =
  match fetchOutcome P url with
  | Thrown e => failedDom e (dom w)
  | Returned blob =>
      match fst (Crypto.decrypt P (derivedKey id index) blob initialWorld) with
      | Thrown e => failedDom e (dom w)
      | Returned content => releasedDom (displayedDomAlternative content (resetDom (dom w)))
      end
  end /\
  calls (snd (CryptoAlternative.submitHandler P form w)) =
  calls w ++
  [SubtleDigest (str "SHA-256") (TextEncoder_encode index); Fetch url] ++
  match fetchOutcome P url with
  | Thrown e => []
  | Returned blob => deriveCalls id index ++ decryptCalls (derivedKey id index) blob
  end.
Proof.
  intros index id url.
  remember (CryptoAlternative.submitHandler P form w) as run eqn:Hrun.
  unfold CryptoAlternative.submitHandler in Hrun. fold index id in Hrun.
  unfold try_finally, try_catch in Hrun.
  cbn -[str app trim] in Hrun.
  unfold bind at 1 in Hrun. rewrite getHash_run in Hrun.
  cbn -[str app trim] in Hrun. unfold bind at 1 in Hrun. rewrite fetchFile_run in Hrun.
  fold url in Hrun.
  destruct (fetchOutcome P url) as [blob|e].
  - cbn -[str app trim] in Hrun. unfold bind at 1 in Hrun. rewrite getKey_run in Hrun.
    cbn -[str app trim deriveCalls] in Hrun. unfold bind at 1 in Hrun.
    match type of Hrun with
    | context [Crypto.decrypt P ?k blob ?w1] =>
        pose proof (decrypt_fst P k blob w1 initialWorld (derivedKey_usable id index)) as Hf;
        pose proof (decrypt_dom P k blob w1) as Hd;
        pose proof (decrypt_calls P k blob w1) as Hc;
        destruct (Crypto.decrypt P k blob w1) as [[content|e] w2]
    end; cbn [fst snd calls dom] in Hf, Hd, Hc; rewrite <- Hf.
    + cbn -[str app trim deriveCalls] in Hrun. rewrite displayContentAlternative_run in Hrun.
      cbn -[str app trim deriveCalls] in Hrun. rewrite Hd, Hc in Hrun. subst run.
      cbn [fst snd calls dom]. repeat split.
      rewrite <- !app_assoc. reflexivity.
    + cbn -[str app trim deriveCalls] in Hrun. rewrite Hd, Hc in Hrun. subst run.
      cbn [fst snd calls dom]. repeat split.
      rewrite <- !app_assoc. reflexivity.
  - cbn -[str app trim] in Hrun. subst run. cbn [fst snd calls dom]. repeat split.
    rewrite <- !app_assoc. reflexivity.
Qed.

(** The locator resolver of crypto.js: for every identity, the file name is
    the 64 uppercase hexadecimal digits of the SHA-256 digest of the UTF-8
    bytes of index, "|" and id, followed by ".enc"; and the handler of
    crypto.js fetches the file of that name. *)
Lemma locator_resolution :
  forall P index id w,
    let digest := Sha256.sha256 (TextEncoder_encode (index ++ str "|" ++ id)) in
    fst (Crypto.getEncryptedFilename P index id w) = Returned (hexUpper digest ++ str ".enc") /\
    length (hexUpper digest) = 64%nat /\
    Forall (fun u => In u (str "0123456789ABCDEF")) (hexUpper digest) /\
    forall form,
      In (Fetch (fileUrl (locator (trim (Crypto.indexNumberValue form))
                                  (trim (Crypto.idValue form)))))
         (calls (snd (Crypto.submitHandler P form w))).
Proof.
  intros P index id w digest. split; [|split; [|split]].
  - rewrite getEncryptedFilename_run. reflexivity.
  - unfold digest. rewrite hexUpper_length, sha256_length. reflexivity.
  - apply hexUpper_digits, sha256_all_bytes.
  - intros form. destruct (submitHandler_run P form w) as [_ [_ Hc]].
    rewrite Hc. apply in_or_app. right. right. left. reflexivity.
Qed.

(** C1: the handler of crypto-alternative.js does not resolve this locator.
    For the identity (2020123, 987654321) it digests the index
    alone and asks for the file named by that digest, without the extension,
    where the handler of crypto.js asks for the digest of "2020123|987654321"
    followed by ".enc". *)
Theorem alternative_handler_fetches_index_hash :
  calls (snd (CryptoAlternative.submitHandler offlinePlatform
                (Crypto.mkFormValues (str "2020123") (str "987654321")) initialWorld)) =
    [ SubtleDigest (str "SHA-256") (ascii_bytes "2020123");
      Fetch (fileUrl (str "831D051FCE8CE6C0558467650341B518D6C065406ADC19E50A38C1237D258862")) ] /\
  calls (snd (Crypto.submitHandler offlinePlatform
                (Crypto.mkFormValues (str "2020123") (str "987654321")) initialWorld)) =
    [ SubtleDigest (str "SHA-256") (ascii_bytes "2020123|987654321");
      Fetch (fileUrl (str "6287035574A6D55B49C6C76DA3A2BDEF82A9B80EC7D4E0F07AB9605AF2AF16DB.enc")) ] /\
  locator (str "2020123") (str "987654321") =
    str "6287035574A6D55B49C6C76DA3A2BDEF82A9B80EC7D4E0F07AB9605AF2AF16DB.enc".
Proof. vm_compute. repeat split. Qed.

(** C4: for every id and index, [getKey] returns a key whose material is
    PBKDF2 with HMAC-SHA-256 of the UTF-8 bytes of the id as the password
    and of the index as the salt, with 100000 iterations, 32 bytes long; the
    key is an AES-GCM key of length 256, not extractable, with the usages
    decrypt and encrypt only; and the two requests to the platform are the
    import of the password and this derivation. *)
Theorem getKey_derives_aes_key :
  forall P id index w,
    fst (Crypto.getKey P id index w) =
      Returned (mkCryptoKey (mkKeyAlgorithm (str "AES-GCM") (Some 256)) false
                  [str "decrypt"; str "encrypt"]
                  (Pbkdf2.pbkdf2_hmac_sha256 (TextEncoder_encode id)
                     (TextEncoder_encode index) 100000 32)) /\
    length (Pbkdf2.pbkdf2_hmac_sha256 (TextEncoder_encode id)
              (TextEncoder_encode index) 100000 32) = 32%nat /\
    Crypto.PBKDF2_ITERATIONS = 100000 /\ Crypto.KEY_LENGTH = 256 /\
    calls (snd (Crypto.getKey P id index w)) =
      calls w ++
      [ SubtleImportKey (str "raw") (TextEncoder_encode id) (str "PBKDF2") false
                        [str "deriveBits"; str "deriveKey"];
        SubtleDeriveKey
          (mkPbkdf2Params (str "PBKDF2") (TextEncoder_encode index) 100000 (str "SHA-256"))
          (mkCryptoKey (mkKeyAlgorithm (str "PBKDF2") None) false
                       [str "deriveBits"; str "deriveKey"] (TextEncoder_encode id))
          (mkAesDerivedKeyParams (str "AES-GCM") 256) false
          [str "decrypt"; str "encrypt"] ].
Proof.
  intros P id index w. rewrite getKey_run. cbn [fst snd calls].
  split; [reflexivity|]. split; [apply pbkdf2_key_length|].
  split; [reflexivity|]. split; reflexivity.
Qed.

(** ** Trimming and classification *)

Lemma trimStart_whiteSpace l s : whiteSpaceOnly l -> trimStart (l ++ s) = trimStart s.
Proof.
  unfold whiteSpaceOnly. induction l as [|u l IH]; intros H; [reflexivity|].
  cbn [forallb] in H. apply andb_true_iff in H. destruct H as [Hu Hl].
  cbn [app trimStart]. rewrite Hu. apply IH, Hl.
Qed.

Lemma trimStart_nil l : whiteSpaceOnly l -> trimStart l = [].
Proof.
  intros H. rewrite <- (app_nil_r l). rewrite trimStart_whiteSpace by exact H. reflexivity.
Qed.

Lemma trimStart_app s r :
  trimStart (s ++ r) = if forallb isWhiteSpace s then trimStart r else trimStart s ++ r.
Proof.
  induction s as [|u s IH]; [reflexivity|].
  cbn [app trimStart forallb]. destruct (isWhiteSpace u); [exact IH | reflexivity].
Qed.

Lemma whiteSpaceOnly_rev l : whiteSpaceOnly l -> whiteSpaceOnly (rev l).
Proof.
  unfold whiteSpaceOnly. rewrite !forallb_forall. intros H x Hx. apply H, in_rev, Hx.
Qed.

Lemma trimEnd_whiteSpace s r : whiteSpaceOnly r -> trimEnd (s ++ r) = trimEnd s.
Proof.
  intros H. unfold trimEnd. rewrite rev_app_distr.
  rewrite trimStart_whiteSpace by (apply whiteSpaceOnly_rev, H). reflexivity.
Qed.

(** Trimming removes the white space around a text, whatever the text. *)
Lemma trim_surrounding l s r :
  whiteSpaceOnly l -> whiteSpaceOnly r -> trim (l ++ s ++ r) = trim s.
Proof.
  intros Hl Hr. unfold trim. rewrite trimStart_whiteSpace by exact Hl.
  rewrite trimStart_app. destruct (forallb isWhiteSpace s) eqn:Hs.
  - rewrite (trimStart_nil r Hr), (trimStart_nil s Hs). reflexivity.
  - apply trimEnd_whiteSpace, Hr.
Qed.

Lemma trimStart_split s : exists l, whiteSpaceOnly l /\ s = l ++ trimStart s.
Proof.
  induction s as [|u s [l [Hl E]]].
  - exists []. split; reflexivity.
  - cbn [trimStart]. destruct (isWhiteSpace u) eqn:Hu.
    + exists (u :: l). split.
      * unfold whiteSpaceOnly in *. cbn [forallb]. rewrite Hu, Hl. reflexivity.
      * cbn [app]. rewrite <- E. reflexivity.
    + exists []. split; reflexivity.
Qed.

Lemma trimEnd_split s : exists r, whiteSpaceOnly r /\ s = trimEnd s ++ r.
Proof.
  destruct (trimStart_split (rev s)) as [l [Hl E]].
  exists (rev l). split; [apply whiteSpaceOnly_rev, Hl|].
  unfold trimEnd. rewrite <- rev_app_distr, <- E, rev_involutive. reflexivity.
Qed.

(** Trimming at the end stops at a code unit that is not white space. *)
Lemma trimEnd_keeps p v rest :
  isWhiteSpace v = false -> trimEnd (p ++ v :: rest) = p ++ v :: trimEnd rest.
Proof.
  intros Hv. unfold trimEnd. rewrite rev_app_distr. cbn [rev]. rewrite <- app_assoc.
  cbn [app]. rewrite trimStart_app.
  destruct (forallb isWhiteSpace (rev rest)) eqn:Hr.
  - cbn [trimStart]. rewrite Hv. rewrite (trimStart_nil _ Hr).
    cbn [rev app]. rewrite rev_involutive. reflexivity.
  - rewrite rev_app_distr. cbn [rev]. rewrite rev_involutive, <- app_assoc.
    reflexivity.
Qed.

Lemma trimStart_head s :
  trimStart s = [] \/ exists u t, trimStart s = u :: t /\ isWhiteSpace u = false.
Proof.
  induction s as [|u s IH]; [left; reflexivity|].
  cbn [trimStart]. destruct (isWhiteSpace u) eqn:Hu; [exact IH|].
  right. exists u, s. split; [reflexivity | exact Hu].
Qed.

Lemma last_hd_rev (s : jsstring) d : s <> [] -> last s d = hd d (rev s).
Proof.
  intros Hs. destruct (exists_last Hs) as [p [v ->]].
  rewrite last_last, rev_app_distr. reflexivity.
Qed.

(** What trimming gives has no white space at its ends, and a text that has
    none is left as it is. *)
Lemma trim_noSurroundingSpace s : noSurroundingSpace (trim s).
Proof.
  unfold trim. destruct (trimStart_head s) as [E|[u [t [E Hu]]]]; rewrite E.
  - exact I.
  - pose proof (trimEnd_keeps [] u t Hu) as K. cbn [app] in K.
    assert (L : isWhiteSpace (last (trimEnd (u :: t)) 0) = false).
    { rewrite last_hd_rev by (rewrite K; discriminate).
      unfold trimEnd. rewrite rev_involutive.
      destruct (trimStart_head (rev (u :: t))) as [E'|[v [t' [E' Hv]]]]; rewrite E'.
      - exfalso. unfold trimEnd in K. rewrite E' in K. discriminate K.
      - exact Hv. }
    rewrite K in *. split; [exact Hu | exact L].
Qed.

Lemma trim_bare s : noSurroundingSpace s -> trim s = s.
Proof.
  destruct s as [|u s]; [reflexivity|]. intros [Hu Hl].
  unfold trim. cbn [trimStart]. rewrite Hu. unfold trimEnd.
  rewrite last_hd_rev in Hl by discriminate.
  destruct (rev (u :: s)) as [|v t] eqn:E.
  - apply (f_equal (@rev N)) in E. rewrite rev_involutive in E. discriminate E.
  - cbn [hd] in Hl. cbn [trimStart]. rewrite Hl, <- E. apply rev_involutive.
Qed.

Lemma startsWith_hasPrefix s p : startsWith s p = true <-> hasPrefix s p.
Proof.
  unfold hasPrefix. revert s. induction p as [|c p IH]; intros s; cbn [startsWith].
  - split; [intros _; exists s; reflexivity | reflexivity].
  - destruct s as [|d s].
    + split; [discriminate | intros [rest H]; discriminate].
    + rewrite andb_true_iff, N.eqb_eq, IH. split.
      * intros [-> [rest ->]]. exists rest. reflexivity.
      * intros [rest H]. injection H as -> ->. split; [reflexivity | exists rest; reflexivity].
Qed.

Lemma isHtml_isMarkup content : Crypto.isHtml content = true <-> isMarkup content.
Proof.
  unfold Crypto.isHtml, isMarkup. rewrite orb_true_iff, !startsWith_hasPrefix. reflexivity.
Qed.

(** C7: a decrypted plaintext is displayed as markup exactly when, trimmed
    and in lower case, it begins with "<!doctype" or with "<html": crypto.js
    then writes it to a sandboxed frame and crypto-alternative.js writes it
    as the new document; every other plaintext is displayed as the text of a
    [pre] element by both.  "  <!DOCTYPE html><p>hi</p>" is markup and
    "plain result text" is text. *)
Theorem content_classification :
  forall content w,
    let d := dom w in
    let d1 := dom (snd (Crypto.displayContent content w)) in
    let d2 := dom (snd (CryptoAlternative.displayContent content w)) in
    (isMarkup content <-> Crypto.isHtml content = true) /\
    (isMarkup content ->
     contentChildren d1 = contentChildren d ++ [BackButton; Iframe sandboxTokens content] /\
     documentWritten d2 = Some content /\ contentChildren d2 = contentChildren d) /\
    (~ isMarkup content ->
     contentChildren d1 = contentChildren d ++ [BackButton; Pre content] /\
     contentChildren d2 = contentChildren d ++ [BackButton; Pre content] /\
     documentWritten d2 = documentWritten d) /\
    isMarkup (str "  <!DOCTYPE html><p>hi</p>") /\
    ~ isMarkup (str "plain result text").
Proof.
  intros content w d d1 d2. subst d d1 d2.
  rewrite displayContent_run, displayContentAlternative_run.
  unfold displayedDom, displayedDomAlternative. cbn [snd dom].
  split; [symmetry; apply isHtml_isMarkup|].
  split; [|split; [|split]].
  - intros H. apply isHtml_isMarkup in H. rewrite H. repeat split.
  - intros H. destruct (Crypto.isHtml content) eqn:E.
    + exfalso. apply H, isHtml_isMarkup, E.
    + repeat split.
  - apply isHtml_isMarkup. vm_compute. reflexivity.
  - intros H. apply isHtml_isMarkup in H. vm_compute in H. discriminate.
Qed.

(** C9: a run of the handler of crypto.js returns, with the loading
    indicator hidden and the submit button enabled, on every path.  When the
    fetch fails, the requests of the run are the digest and the one fetch,
    and the page shows the message of that failure and no content.  When the
    fetch succeeds, the requests are the digest, the fetch, the import and
    the derivation of the key and what [decrypt] asks, each once; when
    [decrypt] then fails, the page shows the message of that failure and no
    content, and otherwise it shows the decrypted content and no error. *)
Theorem submit_failure_propagation :
  forall P form w,
    let index := trim (Crypto.indexNumberValue form) in
    let id := trim (Crypto.idValue form) in
    let url := fileUrl (locator index id) in
    let key := derivedKey id index in
    let digest := SubtleDigest (str "SHA-256") (TextEncoder_encode (index ++ str "|" ++ id)) in
    let w' := snd (Crypto.submitHandler P form w) in
    fst (Crypto.submitHandler P form w) = Returned tt /\
    loadingShown (dom w') = false /\
    submitDisabled (dom w') = false /\
    match fetchOutcome P url with
    | Thrown e =>
        calls w' = calls w ++ [digest; Fetch url] /\
        showsFailure e (dom w) (dom w')
    | Returned blob =>
        calls w' = calls w ++ [digest; Fetch url] ++ deriveCalls id index
                           ++ decryptCalls key blob /\
        (length (decryptCalls key blob) <= 1)%nat /\
        match fst (Crypto.decrypt P key blob initialWorld) with
        | Thrown e => showsFailure e (dom w) (dom w')
        | Returned content =>
            errorShown (dom w') = false /\
            contentShown (dom w') = true /\
            contentChildren (dom w') =
              [BackButton;
               if Crypto.isHtml content then Iframe sandboxTokens content else Pre content]
        end
    end.
Proof.
  intros P form w index id url key digest w'.
  destruct (submitHandler_run P form w) as [Hr [Hd Hc]].
  fold index id url key digest w' in Hr, Hd, Hc.
  split; [exact Hr|].
  rewrite Hd, Hc. clear Hr Hd Hc.
  destruct (fetchOutcome P url) as [blob|e].
  - destruct (fst (Crypto.decrypt P key blob initialWorld)) as [content|e].
    + repeat split. unfold decryptCalls. destruct (byteLength blob <? 12); simpl; lia.
    + repeat split. unfold decryptCalls. destruct (byteLength blob <? 12); simpl; lia.
  - rewrite app_nil_r. repeat split.
Qed.

(** A file cut short behind the locator: whatever the identity, the run
    ends with the message of MalformedBlob on the page, no content, and the
    busy state released. *)
Example submit_truncated_file :
  forall form,
    let d := dom (snd (Crypto.submitHandler truncatedPlatform form initialWorld)) in
    errorShown d = true /\
    errorText d = str "Error: Invalid encrypted file format: File is too small." /\
    contentChildren d = [] /\ loadingShown d = false /\ submitDisabled d = false.
Proof.
  intros form d. subst d.
  destruct (submitHandler_run truncatedPlatform form initialWorld) as [_ [Hd _]].
  assert (Ef : forall url, fetchOutcome truncatedPlatform url = Returned [1; 2; 3])
    by reflexivity.
  assert (Ed : forall key w, usableKey key ->
                 fst (Crypto.decrypt truncatedPlatform key [1; 2; 3] w) = Thrown MalformedBlob).
  { intros key w Hk. rewrite decrypt_outcome by exact Hk. reflexivity. }
  rewrite Hd, Ef, Ed by apply derivedKey_usable.
  repeat split.
Qed.

(** C10: both handlers trim the two values of the form before anything
    else, and only the trimmed values reach the core.  For values that are
    an index and an id with white space around them, the trimmed values have
    no white space at their ends, and are the index and the id themselves
    when these have none; the run of either handler digests, fetches and
    derives the key from the trimmed values, and shows what the file behind
    them decrypts to.  Two submissions whose values differ only in the white
    space around them run the same: the same requests, with the same locator
    and the same key, and the same page and console at the end. *)
Theorem submit_trims_inputs :
  forall P index id l1 r1 l2 r2 l1' r1' l2' r2' w,
    whiteSpaceOnly l1 -> whiteSpaceOnly r1 -> whiteSpaceOnly l2 -> whiteSpaceOnly r2 ->
    whiteSpaceOnly l1' -> whiteSpaceOnly r1' -> whiteSpaceOnly l2' -> whiteSpaceOnly r2' ->
    Crypto.submitHandler P
      (Crypto.mkFormValues (l1 ++ index ++ r1) (l2 ++ id ++ r2)) w =
    Crypto.submitHandler P
      (Crypto.mkFormValues (l1' ++ index ++ r1') (l2' ++ id ++ r2')) w /\
    CryptoAlternative.submitHandler P
      (Crypto.mkFormValues (l1 ++ index ++ r1) (l2 ++ id ++ r2)) w =
    CryptoAlternative.submitHandler P
      (Crypto.mkFormValues (l1' ++ index ++ r1') (l2' ++ id ++ r2')) w /\
    noSurroundingSpace (trim index) /\ noSurroundingSpace (trim id) /\
    (noSurroundingSpace index -> trim index = index) /\
    (noSurroundingSpace id -> trim id = id) /\
    calls (snd (Crypto.submitHandler P
                  (Crypto.mkFormValues (l1 ++ index ++ r1) (l2 ++ id ++ r2)) w)) =
      calls w ++
      [SubtleDigest (str "SHA-256") (TextEncoder_encode (trim index ++ str "|" ++ trim id));
       Fetch (fileUrl (locator (trim index) (trim id)))] ++
      match fetchOutcome P (fileUrl (locator (trim index) (trim id))) with
      | Thrown e => []
      | Returned blob =>
          deriveCalls (trim id) (trim index) ++
          decryptCalls (derivedKey (trim id) (trim index)) blob
      end /\
    dom (snd (Crypto.submitHandler P
                (Crypto.mkFormValues (l1 ++ index ++ r1) (l2 ++ id ++ r2)) w)) =
      match fetchOutcome P (fileUrl (locator (trim index) (trim id))) with
      | Thrown e => failedDom e (dom w)
      | Returned blob =>
          match fst (Crypto.decrypt P (derivedKey (trim id) (trim index)) blob
                       initialWorld) with
          | Thrown e => failedDom e (dom w)
          | Returned content => releasedDom (displayedDom content (resetDom (dom w)))
          end
      end /\
    calls (snd (CryptoAlternative.submitHandler P
                  (Crypto.mkFormValues (l1 ++ index ++ r1) (l2 ++ id ++ r2)) w)) =
      calls w ++
      [SubtleDigest (str "SHA-256") (TextEncoder_encode (trim index));
       Fetch (fileUrl (hexUpper (Sha256.sha256 (TextEncoder_encode (trim index)))))] ++
      match fetchOutcome P
              (fileUrl (hexUpper (Sha256.sha256 (TextEncoder_encode (trim index))))) with
      | Thrown e => []
      | Returned blob =>
          deriveCalls (trim id) (trim index) ++
          decryptCalls (derivedKey (trim id) (trim index)) blob
      end /\
    dom (snd (CryptoAlternative.submitHandler P
                (Crypto.mkFormValues (l1 ++ index ++ r1) (l2 ++ id ++ r2)) w)) =
      match fetchOutcome P
              (fileUrl (hexUpper (Sha256.sha256 (TextEncoder_encode (trim index))))) with
      | Thrown e => failedDom e (dom w)
      | Returned blob =>
          match fst (Crypto.decrypt P (derivedKey (trim id) (trim index)) blob
                       initialWorld) with
          | Thrown e => failedDom e (dom w)
          | Returned content =>
              releasedDom (displayedDomAlternative content (resetDom (dom w)))
          end
      end.
Proof.
  intros P index id l1 r1 l2 r2 l1' r1' l2' r2' w H1 H2 H3 H4 H5 H6 H7 H8.
  split; [|split].
  - unfold Crypto.submitHandler. cbn [Crypto.indexNumberValue Crypto.idValue].
    rewrite !trim_surrounding by assumption. reflexivity.
  - unfold CryptoAlternative.submitHandler. cbn [Crypto.indexNumberValue Crypto.idValue].
    rewrite !trim_surrounding by assumption. reflexivity.
  - split; [apply trim_noSurroundingSpace|]. split; [apply trim_noSurroundingSpace|].
    split; [apply trim_bare|]. split; [apply trim_bare|].
    destruct (submitHandler_run P
                (Crypto.mkFormValues (l1 ++ index ++ r1) (l2 ++ id ++ r2)) w)
      as [_ [Hd Hc]].
    destruct (submitHandlerAlternative_run P
                (Crypto.mkFormValues (l1 ++ index ++ r1) (l2 ++ id ++ r2)) w)
      as [_ [Hd' Hc']].
    cbn [Crypto.indexNumberValue Crypto.idValue] in Hd, Hc, Hd', Hc'.
    rewrite (trim_surrounding l1 index r1 H1 H2) in Hd, Hc, Hd', Hc'.
    rewrite (trim_surrounding l2 id r2 H3 H4) in Hd, Hc, Hd', Hc'.
    split; [exact Hc|]. split; [exact Hd|]. split; [exact Hc' | exact Hd'].
Qed.

Lemma submit_trims_inputs_witness :
  Crypto.submitHandler offlinePlatform
    (Crypto.mkFormValues (str " 2020123") (str "987654321  ")) initialWorld =
  Crypto.submitHandler offlinePlatform
    (Crypto.mkFormValues (str "2020123 ") (str "987654321")) initialWorld /\
  calls (snd (Crypto.submitHandler offlinePlatform
                (Crypto.mkFormValues (str " 2020123") (str "987654321  ")) initialWorld)) =
  [SubtleDigest (str "SHA-256") (ascii_bytes "2020123|987654321");
   Fetch (fileUrl (locator (str "2020123") (str "987654321")))].
Proof.
  pose proof (submit_trims_inputs offlinePlatform (str "2020123") (str "987654321")
                (str " ") [] [] (str "  ") [] (str " ") [] [] initialWorld
                eq_refl eq_refl eq_refl eq_refl eq_refl eq_refl eq_refl eq_refl)
    as [E [_ [_ [_ [_ [_ [Hc _]]]]]]].
  split; [exact E | exact Hc].
Defined.

(** The locator resolver itself does not trim: an index with a space before
    it has another locator. *)
Example locator_is_not_trimmed :
  locator (str " 2020123") (str "987654321") <> locator (str "2020123") (str "987654321").
Proof. vm_compute. discriminate. Qed.

(** ** The order of index and id *)

(** Hexadecimal text determines the bytes. *)
Lemma hexDigit_injective x y : x < 16 -> y < 16 -> hexDigit x = hexDigit y -> x = y.
Proof.
  intros Hx Hy H.
  assert (G : forallb (fun x => forallb (fun y =>
                negb (hexDigit x =? hexDigit y) || (x =? y))
                (map N.of_nat (seq 0 256))) (map N.of_nat (seq 0 16)) = true)
    by (vm_compute; reflexivity).
  rewrite forallb_forall in G.
  assert (Ix : In x (map N.of_nat (seq 0 16)))
    by (rewrite <- (N2Nat.id x); apply in_map, in_seq; lia).
  pose proof (below_256 _ (G x Ix) y ltac:(lia)) as G2. cbv beta in G2.
  rewrite H, N.eqb_refl in G2. apply N.eqb_eq, G2.
Qed.

Lemma hexUpper_byte_injective b c :
  b < 256 -> c < 256 ->
  hexDigit (b / 16) = hexDigit (c / 16) -> hexDigit (b mod 16) = hexDigit (c mod 16) ->
  b = c.
Proof.
  intros Hb Hc H1 H2.
  apply hexDigit_injective in H1;
    [| apply N.Div0.div_lt_upper_bound; lia | apply N.Div0.div_lt_upper_bound; lia].
  apply hexDigit_injective in H2; [| apply N.mod_lt; lia | apply N.mod_lt; lia].
  rewrite (N.div_mod b 16), (N.div_mod c 16) by lia. rewrite H1, H2. reflexivity.
Qed.

Lemma hexUpper_injective l1 l2 :
  all_bytes l1 -> all_bytes l2 -> hexUpper l1 = hexUpper l2 -> l1 = l2.
Proof.
  intros H1. revert l2. induction H1 as [|b l1 Hb _ IH]; intros l2 H2 E.
  - destruct l2; [reflexivity | discriminate].
  - destruct H2 as [|c l2 Hc H2]; [discriminate|].
    cbn [hexUpper flat_map app] in E. injection E as E1 E2 E3.
    f_equal; [apply hexUpper_byte_injective; assumption | apply IH; assumption].
Qed.

(** A text is cut at its first delimiter in one way only. *)
Lemma split_at_delimiter (c : N) X Y X' Y' :
  ~ In c X -> ~ In c X' -> X ++ c :: Y = X' ++ c :: Y' -> X = X' /\ Y = Y'.
Proof.
  revert X'. induction X as [|x X IH]; intros [|x' X'] HX HX' E; cbn [app] in E.
  - injection E as E. split; [reflexivity | exact E].
  - injection E as E1 E2. exfalso. apply HX'. left. symmetry. exact E1.
  - injection E as E1 E2. exfalso. apply HX. left. exact E1.
  - injection E as E1 E2. subst x'.
    destruct (IH X') as [-> ->]; [| |exact E2|split; reflexivity].
    + intros H. apply HX. right. exact H.
    + intros H. apply HX'. right. exact H.
Qed.

Lemma WellFormed_combined A B :
  WellFormed A -> WellFormed B -> WellFormed (A ++ str "|" ++ B).
Proof.
  intros WA WB. apply WellFormed_app; [exact WA|].
  cbn [str list_ascii_of_string map app]. apply wf_unit; [reflexivity..|exact WB].
Qed.

Lemma Returned_inj {A} (a b : A) : Returned a = Returned b -> a = b.
Proof. intros H. injection H as H. exact H. Qed.

(** C8, as stated, fails: the empty index with the id "|" and the index "|"
    with the empty id are different pairs of texts with the same locator,
    because the combined text is "||" for both. *)
Lemma locator_swap_collision :
  str "" <> str "|" /\
  fst (Crypto.getEncryptedFilename offlinePlatform (str "") (str "|") initialWorld) =
  fst (Crypto.getEncryptedFilename offlinePlatform (str "|") (str "") initialWorld).
Proof. split; [discriminate | vm_compute; reflexivity]. Qed.

(** The same happens without the delimiter when a surrogate stands alone:
    the encoder turns it into U+FFFD. *)
Example locator_swap_collision_surrogate :
  [0xD800] <> [0xFFFD] /\ locator [0xD800] [0xFFFD] = locator [0xFFFD] [0xD800].
Proof. split; [discriminate | vm_compute; reflexivity]. Qed.

(** C8, amended: for well-formed texts A and B that differ and do not
    contain the delimiter "|", the locator of (A, B) differs from the locator
    of (B, A) unless SHA-256 gives the same digest for the two different
    combined texts. *)
Theorem locator_order_sensitivity :
  forall P A B w w',
    A <> B ->
    ~ In 0x7C A -> ~ In 0x7C B ->
    WellFormed A -> WellFormed B ->
    (Sha256.sha256 (TextEncoder_encode (A ++ str "|" ++ B)) =
     Sha256.sha256 (TextEncoder_encode (B ++ str "|" ++ A)) ->
     TextEncoder_encode (A ++ str "|" ++ B) = TextEncoder_encode (B ++ str "|" ++ A)) ->
    fst (Crypto.getEncryptedFilename P A B w) <> fst (Crypto.getEncryptedFilename P B A w').
Proof.
  intros P A B w w' Hne HA HB WA WB Hsha. rewrite !getEncryptedFilename_run. cbn [fst].
  intros E. apply Returned_inj in E. unfold locator in E. apply app_inv_tail in E.
  apply hexUpper_injective in E; try apply sha256_all_bytes.
  apply Hsha in E.
  apply TextEncoder_encode_injective in E; try (apply WellFormed_combined; assumption).
  apply Hne. apply (split_at_delimiter 0x7C A B B A HA HB). exact E.
Qed.

Lemma locator_order_sensitivity_witness :
  fst (Crypto.getEncryptedFilename offlinePlatform (str "A") (str "B") initialWorld) <>
  fst (Crypto.getEncryptedFilename offlinePlatform (str "B") (str "A") initialWorld).
Proof.
  refine (locator_order_sensitivity offlinePlatform (str "A") (str "B") initialWorld
            initialWorld _ _ _ _ _ _).
  - discriminate.
  - cbn. intros [H|[]]. discriminate H.
  - cbn. intros [H|[]]. discriminate H.
  - apply wf_unit; [reflexivity..|apply wf_nil].
  - apply wf_unit; [reflexivity..|apply wf_nil].
  - intros H. vm_compute in H. discriminate H.
Defined.

(** ** The cipher: lengths and the round trip *)

(** The cipher gives a block of sixteen bytes under a key of 32 bytes,
    whatever the block it is given. *)
Lemma aes256_block_length key block :
  length key = 32%nat -> length (Aes.encrypt_block key block) = 16%nat.
Proof.
  intros H.
  do 32 (destruct key as [|? key]; [discriminate H|]).
  destruct key; [|discriminate H]. clear H.
  reflexivity.
Qed.

Lemma chunks_fuel_enough {A} (n : nat) :
  (0 < n)%nat ->
  forall f1 f2 (l : list A),
    (length l <= f1)%nat -> (length l <= f2)%nat ->
    chunks_fuel f1 n l = chunks_fuel f2 n l.
Proof.
  intros Hn. induction f1 as [|f1 IH]; intros f2 l H1 H2.
  - destruct l; [|simpl in H1; lia]. destruct f2; reflexivity.
  - destruct l as [|a l]; [destruct f2; reflexivity|].
    destruct f2 as [|f2]; [simpl in H2; lia|].
    cbn [chunks_fuel]. f_equal. cbn [length] in H1, H2.
    apply IH; rewrite length_skipn; cbn [length]; lia.
Qed.

(** A list that is not empty is cut into its first chunk and the chunks of
    the rest. *)
Lemma chunks_unfold {A} (n : nat) (l : list A) :
  (0 < n)%nat -> l <> [] -> chunks n l = firstn n l :: chunks n (skipn n l).
Proof.
  intros Hn Hl. unfold chunks. destruct l as [|a l]; [congruence|].
  cbn [length chunks_fuel]. f_equal.
  apply chunks_fuel_enough; [exact Hn | | lia].
  rewrite length_skipn. cbn [length]. lia.
Qed.

Lemma xor_bytes_length_le a b :
  (length a <= length b)%nat -> length (xor_bytes a b) = length a.
Proof.
  revert b. induction a as [|x a IH]; intros b H; [reflexivity|].
  destruct b as [|y b]; cbn [length] in H; [lia|].
  cbn [xor_bytes length]. f_equal. apply IH. lia.
Qed.

Lemma xor_bytes_involutive a k :
  (length a <= length k)%nat -> xor_bytes (xor_bytes a k) k = a.
Proof.
  revert k. induction a as [|x a IH]; intros k H; [reflexivity|].
  destruct k as [|y k]; cbn [length] in H; [lia|].
  cbn [xor_bytes]. rewrite N.lxor_assoc, N.lxor_nilpotent, N.lxor_0_r.
  f_equal. apply IH. lia.
Qed.

Section Gctr.

Variable key : bytes.
Hypothesis key_length : length key = 32%nat.

Lemma gctr_nil cb : Gcm.gctr key cb [] = [].
Proof. reflexivity. Qed.

Lemma gctr_unfold cb p :
  p <> [] ->
  Gcm.gctr key cb p =
  xor_bytes (firstn 16 p) (Aes.encrypt_block key cb) ++
  Gcm.gctr key (Gcm.inc32 cb) (skipn 16 p).
Proof.
  intros Hp. unfold Gcm.gctr. rewrite chunks_unfold by (lia || exact Hp). reflexivity.
Qed.

Lemma gctr_length p : forall cb, length (Gcm.gctr key cb p) = length p.
Proof.
  remember (length p) as n eqn:Hn. revert p Hn.
  induction n as [n IH] using lt_wf_ind. intros p Hn cb.
  destruct p as [|a p]; [subst; reflexivity|].
  rewrite gctr_unfold by discriminate.
  rewrite length_app, xor_bytes_length_le
    by (rewrite aes256_block_length by exact key_length; apply firstn_le_length).
  assert (Hlt : (length (skipn 16 (a :: p)) < n)%nat)
    by (rewrite length_skipn; subst n; cbn [length]; lia).
  rewrite (IH _ Hlt _ eq_refl). rewrite length_firstn, length_skipn. lia.
Qed.

(** The counter mode is its own inverse. *)
Lemma gctr_involutive p : forall cb, Gcm.gctr key cb (Gcm.gctr key cb p) = p.
Proof.
  remember (length p) as n eqn:Hn. revert p Hn.
  induction n as [n IH] using lt_wf_ind. intros p Hn cb.
  destruct p as [|a p]; [reflexivity|].
  rewrite (gctr_unfold cb (a :: p)) by discriminate.
  set (X := xor_bytes (firstn 16 (a :: p)) (Aes.encrypt_block key cb)).
  set (R := Gcm.gctr key (Gcm.inc32 cb) (skipn 16 (a :: p))).
  assert (HX : length X = length (firstn 16 (a :: p))).
  { apply xor_bytes_length_le. rewrite aes256_block_length by exact key_length.
    apply firstn_le_length. }
  assert (HR : length R = length (skipn 16 (a :: p))) by apply gctr_length.
  assert (Hne : X ++ R <> []).
  { intros E. apply (f_equal (@length N)) in E. rewrite length_app, HX in E.
    simpl in E. lia. }
  assert (Hsplit : firstn 16 (X ++ R) = X /\ skipn 16 (X ++ R) = R).
  { rewrite length_firstn in HX. rewrite length_skipn in HR.
    destruct (Nat.le_gt_cases 16 (length (a :: p))) as [Hl|Hl].
    - assert (length X = 16%nat) by lia.
      split; [rewrite firstn_app, firstn_all2, (proj2 (Nat.sub_0_le _ _)), firstn_O, app_nil_r
                by lia; reflexivity|].
      rewrite skipn_app, skipn_all2, (proj2 (Nat.sub_0_le _ _)) by lia. reflexivity.
    - assert (R = []) by (apply length_zero_iff_nil; lia). subst R.
      match goal with H : _ = [] |- _ => rewrite H end.
      rewrite app_nil_r. split; [apply firstn_all2; lia | apply skipn_all2; lia]. }
  rewrite gctr_unfold by exact Hne. destruct Hsplit as [-> ->].
  subst X. rewrite xor_bytes_involutive
    by (rewrite aes256_block_length by exact key_length; apply firstn_le_length).
  assert (Hlt : (length (skipn 16 (a :: p)) < n)%nat)
    by (rewrite length_skipn; subst n; cbn [length]; lia).
  subst R. rewrite (IH _ Hlt _ eq_refl). apply firstn_skipn.
Qed.

Lemma tag_length iv aad c : length (Gcm.tag key iv aad c) = 16%nat.
Proof. unfold Gcm.tag. rewrite gctr_length. apply be_bytes_length. Qed.

(** Authenticated decryption gives back what authenticated encryption was
    given. *)
Lemma gcm_decrypt_encrypt iv aad p :
  let sealed := Gcm.encrypt key iv aad p 16 in
  length sealed = (length p + 16)%nat /\
  Gcm.decrypt key iv aad (firstn (length p) sealed) (skipn (length p) sealed) = Some p.
Proof.
  intros sealed. subst sealed. unfold Gcm.encrypt.
  set (c := Gcm.gctr key (Gcm.inc32 (Gcm.j0 key iv)) p).
  assert (Hc : length c = length p) by apply gctr_length.
  assert (Ht : firstn 16 (Gcm.tag key iv aad c) = Gcm.tag key iv aad c)
    by (apply firstn_all2; rewrite tag_length; lia).
  rewrite Ht. split; [rewrite length_app, Hc, tag_length; reflexivity|].
  rewrite <- Hc, firstn_app, firstn_all, Nat.sub_diag, firstn_O, app_nil_r.
  rewrite skipn_app, skipn_all, Nat.sub_diag. cbn [skipn app].
  unfold Gcm.decrypt. rewrite tag_length. rewrite Ht, eqb_list_refl.
  subst c. rewrite gctr_involutive. reflexivity.
Qed.

End Gctr.

(** ** Names of files *)

(** X1: the hexadecimal text that [getHash] and [getEncryptedFilename] make
    of a byte array has two characters for each byte, all of them among
    0-9 and A-F, and two byte arrays with the same text are the same. *)
Theorem hashHexOf_fixed_width :
  forall l1 l2,
    all_bytes l1 -> all_bytes l2 ->
    length (Crypto.hashHexOf l1) = (2 * length l1)%nat /\
    Forall (fun u => In u (str "0123456789ABCDEF")) (Crypto.hashHexOf l1) /\
    (Crypto.hashHexOf l1 = Crypto.hashHexOf l2 -> l1 = l2).
Proof.
  intros l1 l2 H1 H2. rewrite !hashHexOf_hexUpper by assumption.
  split; [apply hexUpper_length|]. split; [apply hexUpper_digits, H1|].
  apply hexUpper_injective; assumption.
Qed.

Lemma hashHexOf_fixed_width_witness :
  Crypto.hashHexOf [0x0A; 0xFF] = str "0AFF" /\
  length (Crypto.hashHexOf [0x0A; 0xFF]) = 4%nat.
Proof.
  split; [reflexivity|].
  refine (proj1 (hashHexOf_fixed_width [0x0A; 0xFF] [] _ _)).
  - repeat constructor.
  - constructor.
Defined.

(** X2: [getHash] returns the 64 uppercase hexadecimal digits of the
    SHA-256 digest of the UTF-8 bytes of its argument; it makes the one
    digest request and leaves the console and the page as they are.
    [getEncryptedFilename] gives what [getHash] gives for index, "|" and id,
    followed by ".enc".  Two arguments get the same hash only when their
    digests are the same. *)
Theorem getHash_digest_name :
  forall P index w,
    let digest := Sha256.sha256 (TextEncoder_encode index) in
    fst (Crypto.getHash P index w) = Returned (hexUpper digest) /\
    length (hexUpper digest) = 64%nat /\
    Forall (fun u => In u (str "0123456789ABCDEF")) (hexUpper digest) /\
    snd (Crypto.getHash P index w) =
      mkWorld (console w) (calls w ++ [SubtleDigest (str "SHA-256") (TextEncoder_encode index)])
              (dom w) /\
    (forall id, fst (Crypto.getEncryptedFilename P index id w) =
                match fst (Crypto.getHash P (index ++ str "|" ++ id) w) with
                | Returned h => Returned (h ++ str ".enc")
                | Thrown e => Thrown e
                end) /\
    (forall index' w',
       fst (Crypto.getHash P index w) = fst (Crypto.getHash P index' w') ->
       digest = Sha256.sha256 (TextEncoder_encode index')).
Proof.
  intros P index w digest. rewrite getHash_run. cbn [fst snd].
  split; [reflexivity|].
  split; [unfold digest; rewrite hexUpper_length, sha256_length; reflexivity|].
  split; [apply hexUpper_digits, sha256_all_bytes|].
  split; [reflexivity|]. split.
  - intros id. rewrite getEncryptedFilename_run, getHash_run. reflexivity.
  - intros index' w' E. rewrite getHash_run in E. cbn [fst] in E.
    apply Returned_inj in E. apply hexUpper_injective in E; try apply sha256_all_bytes.
    exact E.
Qed.

(** ** Fetching *)

(** X3: [fetchFile] asks the network once, for the address made of the
    fixed base and the file name, and writes that address to the console.
    A failure of the network is thrown as it is; a response with a status
    outside 200-299 is thrown as "Failed to fetch file: ", the status in
    decimal, a space and the status text, whatever its body; a response
    with a status within 200-299 gives what reading its body gives. *)
Theorem fetchFile_outcomes :
  forall P filename w,
    let url := str "https://pasinduravimal.github.io/GPACalculator/files/" ++ filename in
    let run := Crypto.fetchFile P filename w in
    calls (snd run) = calls w ++ [Fetch url] /\
    console (snd run) = console w ++ [ConsoleLog [VStr (str "Fetching file from:"); VStr url]] /\
    dom (snd run) = dom w /\
    (forall e, network P url = NetworkError e -> fst run = Thrown e) /\
    (forall r, network P url = Responded r ->
               (status r < 200 \/ 299 < status r) ->
               fst run = Thrown (Error (str "Failed to fetch file: " ++
                                        toStringRadix 10 (status r) ++ str " " ++
                                        statusText r))) /\
    (forall r, network P url = Responded r ->
               200 <= status r <= 299 -> fst run = body r).
Proof.
  intros P filename w url run. subst run. rewrite fetchFile_run. cbn [fst snd calls console dom].
  change (fileUrl filename) with url.
  split; [reflexivity|]. split; [reflexivity|]. split; [reflexivity|].
  unfold fetchOutcome. split; [|split].
  - intros e ->. reflexivity.
  - intros r -> H. unfold ok.
    destruct (N.leb_spec 200 (status r)); destruct (N.leb_spec (status r) 299);
      cbn [andb]; try reflexivity. lia.
  - intros r -> [H1 H2]. unfold ok.
    apply N.leb_le in H1, H2. rewrite H1, H2. reflexivity.
Qed.

(** ** Sealed blobs *)

Lemma openBlob_sealed k nonce p :
  length k = 32%nat -> length nonce = 12%nat ->
  openBlob k (sealedBlob k nonce p) = Some p.
Proof.
  intros Hk Hn. unfold openBlob, sealedBlob.
  destruct (gcm_decrypt_encrypt k Hk nonce [] p) as [Hl Hd].
  set (sealed := Gcm.encrypt k nonce [] p 16) in *.
  rewrite length_app, Hn, Hl.
  assert (E : (12 + (length p + 16) <? 28)%nat = false) by (apply Nat.ltb_ge; lia).
  rewrite E.
  rewrite firstn_app, firstn_all2, Hn by lia. cbn [Nat.sub firstn]. rewrite app_nil_r.
  rewrite skipn_app, skipn_all2, Hn by lia. cbn [Nat.sub skipn app].
  replace (12 + (length p + 16) - 28)%nat with (length p) by lia.
  replace (12 + (length p + 16) - 16)%nat with (12 + length p)%nat by lia.
  rewrite skipn_app, skipn_all2, Hn by lia. cbn [app].
  replace (12 + length p - 12)%nat with (length p) by lia.
  exact Hd.
Qed.

Lemma decrypt_sealed P key nonce p w :
  usableKey key -> length (handle key) = 32%nat -> length nonce = 12%nat ->
  fst (Crypto.decrypt P key (sealedBlob (handle key) nonce p) w) =
  Returned (TextDecoder_decode p).
Proof.
  intros Hu Hk Hn.
  rewrite decrypt_outcome by exact Hu. rewrite openBlob_sealed by assumption.
  assert (E : (byteLength (sealedBlob (handle key) nonce p) <? 12) = false).
  { apply N.ltb_ge. unfold byteLength, sealedBlob. rewrite length_app, Hn. lia. }
  rewrite E. reflexivity.
Qed.

Lemma publishedText_wellFormed : WellFormed publishedText.
Proof. repeat (apply wf_unit; [reflexivity | reflexivity | reflexivity |]). apply wf_nil. Qed.

(** X4: [decrypt] undoes the sealing of the file format it documents: for a
    key of 256 bits that the cipher accepts and a nonce of 12 bytes, the
    blob made of the nonce, the AES-GCM ciphertext of some bytes and its tag
    of 16 bytes decrypts to those bytes decoded; when the bytes are the
    UTF-8 of a well-formed text that does not begin with a byte order mark,
    [decrypt] returns that text. *)
Theorem decrypt_inverts_encryption :
  forall P key nonce p w,
    usableKey key ->
    length (handle key) = 32%nat ->
    length nonce = 12%nat ->
    fst (Crypto.decrypt P key (sealedBlob (handle key) nonce p) w) =
      Returned (TextDecoder_decode p) /\
    forall text, WellFormed text -> hd 0 text <> 0xFEFF -> p = TextEncoder_encode text ->
      fst (Crypto.decrypt P key (sealedBlob (handle key) nonce p) w) = Returned text.
Proof.
  intros P key nonce p w Hu Hk Hn.
  pose proof (decrypt_sealed P key nonce p w Hu Hk Hn) as G.
  split; [exact G|]. intros text W Hm ->. rewrite G.
  rewrite TextDecoder_decode_encode by assumption. reflexivity.
Qed.

Lemma decrypt_inverts_encryption_witness :
  fst (Crypto.decrypt offlinePlatform sampleKey
         (sealedBlob (handle sampleKey) sampleNonce (TextEncoder_encode publishedText))
         initialWorld) = Returned publishedText.
Proof.
  refine (proj2 (decrypt_inverts_encryption offlinePlatform sampleKey sampleNonce
                   (TextEncoder_encode publishedText) initialWorld _ _ _)
                publishedText _ _ eq_refl).
  - split; reflexivity.
  - reflexivity.
  - reflexivity.
  - exact publishedText_wellFormed.
  - discriminate.
Defined.

(** X5: a sealed blob whose tag is replaced by any other 16 bytes is
    rejected: [decrypt] fails with AuthenticationFailure. *)
Theorem decrypt_rejects_replaced_tag :
  forall P key nonce p tg w,
    let sealed := Gcm.encrypt (handle key) nonce [] p 16 in
    usableKey key ->
    length (handle key) = 32%nat ->
    length nonce = 12%nat ->
    length tg = 16%nat ->
    tg <> skipn (length p) sealed ->
    sealedBlob (handle key) nonce p =
      nonce ++ firstn (length p) sealed ++ skipn (length p) sealed /\
    fst (Crypto.decrypt P key (nonce ++ firstn (length p) sealed ++ tg) w) =
      Thrown AuthenticationFailure.
Proof.
  intros P key nonce p tg w sealed Hu Hk Hn Ht Hne.
  split; [unfold sealedBlob; fold sealed; rewrite firstn_skipn; reflexivity|].
  destruct (gcm_decrypt_encrypt (handle key) Hk nonce [] p) as [Hl Hd].
  fold sealed in Hl, Hd.
  set (c := firstn (length p) sealed) in *.
  assert (Hc : length c = length p) by (subst c; rewrite length_firstn; lia).
  rewrite decrypt_outcome by exact Hu.
  assert (E : (byteLength (nonce ++ c ++ tg) <? 12) = false).
  { apply N.ltb_ge. unfold byteLength. rewrite length_app, Hn. lia. }
  rewrite E. unfold openBlob. rewrite !length_app, Hn, Hc, Ht.
  assert (E2 : (12 + (length p + 16) <? 28)%nat = false) by (apply Nat.ltb_ge; lia).
  rewrite E2.
  rewrite firstn_app, firstn_all2, Hn by lia. cbn [Nat.sub firstn]. rewrite app_nil_r.
  rewrite skipn_app, skipn_all2, Hn by lia. cbn [Nat.sub skipn app].
  replace (12 + (length p + 16) - 28)%nat with (length c) by lia.
  rewrite firstn_app, firstn_all, Nat.sub_diag, firstn_O, app_nil_r.
  replace (12 + (length p + 16) - 16)%nat with (length nonce + length c)%nat by lia.
  rewrite app_assoc, <- length_app, skipn_app, skipn_all, Nat.sub_diag. cbn [skipn app].
  unfold Gcm.decrypt in *. rewrite Ht.
  destruct (eqb_list (firstn 16 (Gcm.tag (handle key) nonce [] c)) tg) eqn:T; [|reflexivity].
  exfalso. apply Hne. apply eqb_list_eq in T. rewrite <- T.
  destruct (eqb_list (firstn (length (skipn (length p) sealed))
                        (Gcm.tag (handle key) nonce [] c)) (skipn (length p) sealed)) eqn:T2;
    [|discriminate].
  apply eqb_list_eq in T2. rewrite length_skipn, Hl in T2.
  replace (length p + 16 - length p)%nat with 16%nat in T2 by lia. exact T2.
Qed.

Lemma decrypt_rejects_replaced_tag_witness :
  fst (Crypto.decrypt offlinePlatform sampleKey
         (sampleNonce ++
          firstn 1 (Gcm.encrypt (handle sampleKey) sampleNonce [] [0xFF] 16) ++
          repeat 0 16) initialWorld) =
  Thrown AuthenticationFailure.
Proof.
  refine (proj2 (decrypt_rejects_replaced_tag offlinePlatform sampleKey sampleNonce [0xFF]
                   (repeat 0 16) initialWorld _ _ _ _ _)).
  - split; reflexivity.
  - reflexivity.
  - reflexivity.
  - reflexivity.
  - intros E. vm_compute in E. discriminate E.
Defined.

(** X6: a blob that holds a nonce but is too short to hold a tag, 12 to 27
    bytes, is not reported as malformed: under a key that the cipher
    accepts the one request to the cipher is made, and [decrypt] fails with
    AuthenticationFailure. *)
Theorem decrypt_blob_without_tag :
  forall P key blob w,
    usableKey key ->
    12 <= byteLength blob < 28 ->
    fst (Crypto.decrypt P key blob w) = Thrown AuthenticationFailure /\
    calls (snd (Crypto.decrypt P key blob w)) =
      calls w ++ [SubtleDecrypt (decryptParams blob) key (skipn 12 blob)].
Proof.
  intros P key blob w Hk [H1 H2]. split.
  - rewrite decrypt_outcome by exact Hk.
    apply N.ltb_ge in H1. rewrite H1. unfold openBlob, byteLength in *.
    assert (E : (length blob <? 28)%nat = true) by (apply Nat.ltb_lt; lia).
    rewrite E. reflexivity.
  - rewrite decrypt_calls. unfold decryptCalls.
    apply N.ltb_ge in H1. rewrite H1. reflexivity.
Qed.

Lemma decrypt_blob_without_tag_witness :
  fst (Crypto.decrypt offlinePlatform sampleKey sampleNonce initialWorld) =
  Thrown AuthenticationFailure.
Proof.
  refine (proj1 (decrypt_blob_without_tag offlinePlatform sampleKey sampleNonce initialWorld
                   _ _)).
  - split; reflexivity.
  - split; [vm_compute; discriminate | reflexivity].
Defined.

Lemma eqb_list_neq a b : a <> b -> eqb_list a b = false.
Proof.
  intros H. destruct (eqb_list a b) eqn:E; [|reflexivity].
  exfalso. apply H, eqb_list_eq, E.
Qed.

(** X7: under a key that is not an AES-GCM key, or that lacks the usage
    decrypt, [decrypt] on a blob of at least 12 bytes fails with the message
    that the platform gives to its InvalidAccessError, behind "Decryption
    failed: "; when that message contains "too short", with MalformedBlob
    instead.  The console shows the error of the platform. *)
Theorem decrypt_key_of_another_kind :
  forall P key blob w,
    alg_name (algorithm key) <> str "AES-GCM" \/ member (str "decrypt") (usages key) = false ->
    12 <= byteLength blob ->
    let msg := exceptionMessage P (str "InvalidAccessError") in
    fst (Crypto.decrypt P key blob w) =
      Thrown (if includes msg (str "too short") then MalformedBlob
              else Error (str "Decryption failed: " ++ msg)) /\
    console (snd (Crypto.decrypt P key blob w)) =
      console w ++ decryptLogs blob ++
      [ConsoleError [VStr (str "Decryption failed:");
                     VErr (mkError (str "InvalidAccessError") msg)]].
Proof.
  intros P key blob w Hk H msg.
  assert (S : subtle_decrypt P (decryptParams blob) key (skipn 12 blob)
                (mkWorld (console w ++ decryptLogs blob) (calls w) (dom w)) =
              (Thrown (mkError (str "InvalidAccessError") msg),
               mkWorld (console w ++ decryptLogs blob)
                       (calls w ++ [SubtleDecrypt (decryptParams blob) key (skipn 12 blob)])
                       (dom w))).
  { unfold subtle_decrypt, bind, request, throw, DOMException.
    cbn [gcm_name decryptParams console calls dom].
    rewrite eqb_list_refl. cbn [negb].
    destruct Hk as [Hk|Hk].
    - rewrite eqb_list_neq by (intros E; apply Hk; symmetry; exact E). reflexivity.
    - destruct (eqb_list (str "AES-GCM") (alg_name (algorithm key))); cbn [negb];
        [rewrite Hk|]; reflexivity. }
  rewrite decrypt_long by exact H. rewrite S. cbn [fst snd console name message].
  assert (N : eqb_list (str "InvalidAccessError") (str "OperationError") = false)
    by reflexivity.
  rewrite N. split; [reflexivity|].
  rewrite <- app_assoc. reflexivity.
Qed.

Lemma decrypt_key_of_another_kind_witness :
  fst (Crypto.decrypt offlinePlatform (passwordKeyOf (str "987654321")) blobFF initialWorld) =
  Thrown (Error (str "Decryption failed: ")).
Proof.
  refine (proj1 (decrypt_key_of_another_kind offlinePlatform (passwordKeyOf (str "987654321"))
                   blobFF initialWorld _ _)).
  - left. discriminate.
  - vm_compute. discriminate.
Defined.

(** ** What the handlers ask of the network *)

Lemma singleton_inj {A} (a b : A) : [a] = [b] -> a = b.
Proof. intros H. injection H as H. exact H. Qed.

Lemma newCalls_app w w' l : calls w' = calls w ++ l -> newCalls w w' = l.
Proof.
  intros H. unfold newCalls. rewrite H, skipn_app, skipn_all, Nat.sub_diag. reflexivity.
Qed.

Lemma requestedUrls_after_fetch key id index (o : Outcome bytes) :
  requestedUrls match o with
                | Thrown _ => []
                | Returned blob => deriveCalls id index ++ decryptCalls key blob
                end = [].
Proof.
  destruct o as [blob|e]; [|reflexivity].
  unfold requestedUrls. rewrite flat_map_app. unfold decryptCalls.
  destruct (byteLength blob <? 12); reflexivity.
Qed.

Lemma submitHandler_urls P form w :
  requestedUrls (newCalls w (snd (Crypto.submitHandler P form w))) =
  [fileUrl (locator (trim (Crypto.indexNumberValue form)) (trim (Crypto.idValue form)))].
Proof.
  destruct (submitHandler_run P form w) as [_ [_ Hc]].
  set (index := trim (Crypto.indexNumberValue form)) in *.
  set (id := trim (Crypto.idValue form)) in *.
  rewrite (newCalls_app _ _ _ Hc).
  unfold requestedUrls at 1. rewrite flat_map_app.
  fold (requestedUrls match fetchOutcome P (fileUrl (locator index id)) with
                      | Thrown _ => []
                      | Returned blob => deriveCalls id index ++
                                         decryptCalls (derivedKey id index) blob
                      end).
  rewrite requestedUrls_after_fetch. reflexivity.
Qed.

Lemma submitHandlerAlternative_urls P form w :
  requestedUrls (newCalls w (snd (CryptoAlternative.submitHandler P form w))) =
  [fileUrl (hexUpper (Sha256.sha256 (TextEncoder_encode (trim (Crypto.indexNumberValue form)))))].
Proof.
  destruct (submitHandlerAlternative_run P form w) as [_ [_ Hc]].
  set (index := trim (Crypto.indexNumberValue form)) in *.
  set (id := trim (Crypto.idValue form)) in *.
  set (h := hexUpper (Sha256.sha256 (TextEncoder_encode index))) in *.
  rewrite (newCalls_app _ _ _ Hc).
  unfold requestedUrls at 1. rewrite flat_map_app.
  fold (requestedUrls match fetchOutcome P (fileUrl h) with
                      | Thrown _ => []
                      | Returned blob => deriveCalls id index ++
                                         decryptCalls (derivedKey id index) blob
                      end).
  rewrite requestedUrls_after_fetch. reflexivity.
Qed.

(** X8: whatever is typed into the form and whatever the network answers,
    a run of the handler of crypto.js asks the network for one address only:
    the fixed base followed by the 64 uppercase hexadecimal digits of the
    SHA-256 digest of the UTF-8 bytes of the trimmed index, "|" and the
    trimmed id, and ".enc".  The index and the id reach the address through
    that digest only: two runs ask for the same address exactly when their
    digests are the same. *)
Theorem submit_requests_one_hashed_address :
  forall P form w,
    let digestOf := fun f : Crypto.FormValues =>
      Sha256.sha256 (TextEncoder_encode (trim (Crypto.indexNumberValue f) ++ str "|" ++
                                         trim (Crypto.idValue f))) in
    requestedUrls (newCalls w (snd (Crypto.submitHandler P form w))) =
      [str "https://pasinduravimal.github.io/GPACalculator/files/" ++
       hexUpper (digestOf form) ++ str ".enc"] /\
    length (hexUpper (digestOf form)) = 64%nat /\
    Forall (fun u => In u (str "0123456789ABCDEF")) (hexUpper (digestOf form)) /\
    forall P' form' w',
      requestedUrls (newCalls w' (snd (Crypto.submitHandler P' form' w'))) =
      requestedUrls (newCalls w (snd (Crypto.submitHandler P form w))) <->
      digestOf form' = digestOf form.
Proof.
  intros P form w digestOf.
  assert (U : forall Q f v,
            requestedUrls (newCalls v (snd (Crypto.submitHandler Q f v))) =
            [str "https://pasinduravimal.github.io/GPACalculator/files/" ++
             hexUpper (digestOf f) ++ str ".enc"]).
  { intros Q f v. rewrite submitHandler_urls. reflexivity. }
  split; [apply U|].
  split; [unfold digestOf; rewrite hexUpper_length, sha256_length; reflexivity|].
  split; [unfold digestOf; apply hexUpper_digits, sha256_all_bytes|].
  intros P' form' w'. rewrite !U. split.
  - intros E. apply singleton_inj in E.
    apply (app_inv_head (str "https://pasinduravimal.github.io/GPACalculator/files/")) in E.
    apply (app_inv_tail (str ".enc")) in E.
    apply (hexUpper_injective _ _ (sha256_all_bytes _) (sha256_all_bytes _)) in E.
    exact E.
  - intros E. rewrite E. reflexivity.
Qed.

(** X9: a run of the handler of crypto-alternative.js asks the network for
    one address only, the fixed base followed by 64 uppercase hexadecimal
    digits with no extension; and no run of the handler of crypto.js, for
    any form, asks for that address. *)
Theorem alternative_requests_another_address :
  forall P form w,
    (exists h,
       length h = 64%nat /\
       Forall (fun u => In u (str "0123456789ABCDEF")) h /\
       requestedUrls (newCalls w (snd (CryptoAlternative.submitHandler P form w))) =
         [str "https://pasinduravimal.github.io/GPACalculator/files/" ++ h]) /\
    forall P' form' w' url,
      In url (requestedUrls (newCalls w (snd (CryptoAlternative.submitHandler P form w)))) ->
      ~ In url (requestedUrls (newCalls w' (snd (Crypto.submitHandler P' form' w')))).
Proof.
  intros P form w. split.
  - rewrite submitHandlerAlternative_urls. eexists. split; [|split; [|reflexivity]].
    + rewrite hexUpper_length, sha256_length. reflexivity.
    + apply hexUpper_digits, sha256_all_bytes.
  - intros P' form' w' url. rewrite submitHandlerAlternative_urls, submitHandler_urls.
    intros [<-|[]] [Hu|[]].
    apply (f_equal (@length N)) in Hu. unfold fileUrl in Hu.
    rewrite !length_app, locator_length, hexUpper_length, sha256_length in Hu. lia.
Qed.

(** ** From the form to the page *)

Lemma derivedKey_length id index : length (handle (derivedKey id index)) = 32%nat.
Proof. apply pbkdf2_key_length. Qed.

Lemma decrypt_published P id index nonce text w :
  length nonce = 12%nat -> WellFormed text -> hd 0 text <> 0xFEFF ->
  fst (Crypto.decrypt P (derivedKey id index)
         (sealedBlob (handle (derivedKey id index)) nonce (TextEncoder_encode text)) w) =
  Returned text.
Proof.
  intros Hn W Hm.
  pose proof (decrypt_sealed P (derivedKey id index) nonce (TextEncoder_encode text) w
                (derivedKey_usable id index) (derivedKey_length id index) Hn) as G.
  rewrite TextDecoder_decode_encode in G by assumption. exact G.
Qed.

Lemma fetchOutcome_ok P url st stText b :
  network P url = Responded (mkResponse st stText b) -> 200 <= st <= 299 ->
  fetchOutcome P url = b.
Proof.
  intros H [H1 H2]. unfold fetchOutcome. rewrite H. unfold ok. cbn [status body].
  apply N.leb_le in H1, H2. rewrite H1, H2. reflexivity.
Qed.

(** X10: the pipeline of crypto.js end to end.  When the network holds,
    at the address of the locator of the trimmed index and id, a text sealed
    under the key derived from that id and index, a run of the handler ends
    with that text on the page, after the button "Back to Form": in a
    sandboxed frame when it is markup and in a [pre] element otherwise; the
    content is shown and the error is not, the form is hidden, and the busy
    state is released. *)
Theorem submit_displays_published_text :
  forall P form w st stText nonce text,
    let index := trim (Crypto.indexNumberValue form) in
    let id := trim (Crypto.idValue form) in
    network P (fileUrl (locator index id)) =
      Responded (mkResponse st stText
                   (Returned (sealedBlob (handle (derivedKey id index)) nonce
                                         (TextEncoder_encode text)))) ->
    200 <= st <= 299 ->
    length nonce = 12%nat ->
    WellFormed text -> hd 0 text <> 0xFEFF ->
    let d := dom (snd (Crypto.submitHandler P form w)) in
    contentChildren d =
      [BackButton; if Crypto.isHtml text then Iframe sandboxTokens text else Pre text] /\
    contentShown d = true /\ errorShown d = false /\
    loadingShown d = false /\ submitDisabled d = false /\
    containerExpanded d = true /\ formDisplay d = Some (str "none") /\
    errorText d = errorText (dom w) /\ documentWritten d = documentWritten (dom w).
Proof.
  intros P form w st stText nonce text index id Hnet Hst Hn W Hm d. subst d.
  destruct (submitHandler_run P form w) as [_ [Hd _]]. fold index id in Hd.
  rewrite Hd. rewrite (fetchOutcome_ok _ _ _ _ _ Hnet Hst).
  rewrite decrypt_published by assumption.
  repeat split.
Qed.

Lemma submit_displays_published_text_witness :
  contentChildren (dom (snd (Crypto.submitHandler servingPlatform
                               (Crypto.mkFormValues (str " 2020123") (str "987654321 "))
                               initialWorld))) =
  [BackButton; Pre publishedText].
Proof.
  refine (proj1 (submit_displays_published_text servingPlatform
                   (Crypto.mkFormValues (str " 2020123") (str "987654321 "))
                   initialWorld 200 (str "OK") sampleNonce publishedText _ _ _ _ _)).
  - reflexivity.
  - split; discriminate.
  - reflexivity.
  - exact publishedText_wellFormed.
  - discriminate.
Defined.

(** X11: a run of the handler of crypto-alternative.js returns, with the
    loading indicator hidden and the submit button enabled, on every path.
    When the fetch fails, the requests of the run are the digest of the
    index and the one fetch, and the page shows the message of that failure
    and no content.  When [decrypt] fails, the page shows the message of
    that failure and no content.  Otherwise markup replaces the document and
    nothing is added to the page, and any other text is shown in a [pre]
    element after the button "Back to Form". *)
Theorem alternative_failure_propagation :
  forall P form w,
    let index := trim (Crypto.indexNumberValue form) in
    let id := trim (Crypto.idValue form) in
    let url := fileUrl (hexUpper (Sha256.sha256 (TextEncoder_encode index))) in
    let key := derivedKey id index in
    let digest := SubtleDigest (str "SHA-256") (TextEncoder_encode index) in
    let w' := snd (CryptoAlternative.submitHandler P form w) in
    fst (CryptoAlternative.submitHandler P form w) = Returned tt /\
    loadingShown (dom w') = false /\
    submitDisabled (dom w') = false /\
    match fetchOutcome P url with
    | Thrown e =>
        calls w' = calls w ++ [digest; Fetch url] /\
        showsFailure e (dom w) (dom w')
    | Returned blob =>
        calls w' = calls w ++ [digest; Fetch url] ++ deriveCalls id index
                           ++ decryptCalls key blob /\
        match fst (Crypto.decrypt P key blob initialWorld) with
        | Thrown e => showsFailure e (dom w) (dom w')
        | Returned content =>
            errorShown (dom w') = false /\
            if Crypto.isHtml content
            then documentWritten (dom w') = Some content /\
                 contentShown (dom w') = false /\ contentChildren (dom w') = []
            else documentWritten (dom w') = documentWritten (dom w) /\
                 contentShown (dom w') = true /\
                 contentChildren (dom w') = [BackButton; Pre content]
        end
    end.
Proof.
  intros P form w index id url key digest w'.
  destruct (submitHandlerAlternative_run P form w) as [Hr [Hd Hc]].
  fold index id url key digest w' in Hr, Hd, Hc.
  split; [exact Hr|].
  rewrite Hd, Hc. clear Hr Hd Hc.
  destruct (fetchOutcome P url) as [blob|e].
  - destruct (fst (Crypto.decrypt P key blob initialWorld)) as [content|e].
    + unfold displayedDomAlternative. destruct (Crypto.isHtml content); repeat split.
    + repeat split.
  - rewrite app_nil_r. repeat split.
Qed.

(** X17: the pipeline of crypto-alternative.js end to end.  When the
    network holds, at the address named by the hash of the trimmed index, a
    text sealed under the key derived from the trimmed id and index, a run
    of the handler shows no error and releases the busy state; a text that
    is markup replaces the document and nothing is added to the page, and
    any other text is shown in a [pre] element after the button "Back to
    Form", with the form hidden. *)
Theorem alternative_displays_published_text :
  forall P form w st stText nonce text,
    let index := trim (Crypto.indexNumberValue form) in
    let id := trim (Crypto.idValue form) in
    network P (fileUrl (hexUpper (Sha256.sha256 (TextEncoder_encode index)))) =
      Responded (mkResponse st stText
                   (Returned (sealedBlob (handle (derivedKey id index)) nonce
                                         (TextEncoder_encode text)))) ->
    200 <= st <= 299 ->
    length nonce = 12%nat ->
    WellFormed text -> hd 0 text <> 0xFEFF ->
    let d := dom (snd (CryptoAlternative.submitHandler P form w)) in
    errorShown d = false /\ loadingShown d = false /\ submitDisabled d = false /\
    (Crypto.isHtml text = true ->
     documentWritten d = Some text /\ contentChildren d = [] /\ contentShown d = false) /\
    (Crypto.isHtml text = false ->
     documentWritten d = documentWritten (dom w) /\
     contentChildren d = [BackButton; Pre text] /\ contentShown d = true /\
     containerExpanded d = true /\ formDisplay d = Some (str "none")).
Proof.
  intros P form w st stText nonce text index id Hnet Hst Hn W Hm d. subst d.
  destruct (submitHandlerAlternative_run P form w) as [_ [Hd _]]. fold index id in Hd.
  rewrite Hd. rewrite (fetchOutcome_ok _ _ _ _ _ Hnet Hst).
  rewrite decrypt_published by assumption.
  unfold displayedDomAlternative.
  destruct (Crypto.isHtml text); repeat split; discriminate.
Qed.

Lemma alternative_displays_published_text_witness :
  contentChildren (dom (snd (CryptoAlternative.submitHandler servingPlatform
                               (Crypto.mkFormValues (str " 2020123") (str "987654321 "))
                               initialWorld))) =
  [BackButton; Pre publishedText].
Proof.
  refine (proj1 (proj2 (proj2 (proj2 (proj2 (proj2
            (alternative_displays_published_text servingPlatform
               (Crypto.mkFormValues (str " 2020123") (str "987654321 "))
               initialWorld 200 (str "OK") sampleNonce publishedText _ _ _ _ _)))) _))).
  - reflexivity.
  - split; discriminate.
  - reflexivity.
  - exact publishedText_wellFormed.
  - discriminate.
  - reflexivity.
Defined.

(** X12: submitting again does not pile up content.  On a platform that
    answers as before, the page after a second run of the handler of
    crypto.js on the same values is the page after the first, and so it is
    for the handler of crypto-alternative.js when the first run has not
    replaced the document; and what a run of the handler of crypto.js leaves
    shown, the error, the content and its children, the loading indicator
    and the state of the button, does not depend on the page it started
    from. *)
Theorem submit_again_same_page :
  forall P form w,
    let once := snd (Crypto.submitHandler P form w) in
    let twice := snd (Crypto.submitHandler P form once) in
    let once' := snd (CryptoAlternative.submitHandler P form w) in
    let twice' := snd (CryptoAlternative.submitHandler P form once') in
    dom twice = dom once /\
    (documentWritten (dom once') = documentWritten (dom w) -> dom twice' = dom once') /\
    forall w0,
      let other := dom (snd (Crypto.submitHandler P form w0)) in
      errorShown other = errorShown (dom once) /\
      contentShown other = contentShown (dom once) /\
      contentChildren other = contentChildren (dom once) /\
      loadingShown other = loadingShown (dom once) /\
      submitDisabled other = submitDisabled (dom once).
Proof.
  intros P form w once twice once' twice'.
  destruct (submitHandler_run P form w) as [_ [Hd _]].
  destruct (submitHandler_run P form once) as [_ [Hd2 _]].
  destruct (submitHandlerAlternative_run P form w) as [_ [Hd' _]].
  destruct (submitHandlerAlternative_run P form once') as [_ [Hd2' _]].
  fold once in Hd. fold twice in Hd2. fold once' in Hd'. fold twice' in Hd2'.
  set (index := trim (Crypto.indexNumberValue form)) in *.
  set (id := trim (Crypto.idValue form)) in *.
  split; [|split].
  - rewrite Hd2, Hd.
    destruct (fetchOutcome P (fileUrl (locator index id))) as [blob|e].
    + destruct (fst (Crypto.decrypt P (derivedKey id index) blob initialWorld)) as [content|e].
      * destruct (dom w). reflexivity.
      * destruct (dom w). reflexivity.
    + destruct (dom w). reflexivity.
  - intros _. rewrite Hd2', Hd'.
    destruct (fetchOutcome P (fileUrl (hexUpper (Sha256.sha256 (TextEncoder_encode index)))))
      as [blob|e].
    + destruct (fst (Crypto.decrypt P (derivedKey id index) blob initialWorld)) as [content|e].
      * unfold displayedDomAlternative.
        destruct (Crypto.isHtml content); destruct (dom w); reflexivity.
      * destruct (dom w). reflexivity.
    + destruct (dom w). reflexivity.
  - intros w0 other. subst other.
    destruct (submitHandler_run P form w0) as [_ [Hd0 _]]. fold index id in Hd0.
    rewrite Hd0, Hd.
    destruct (fetchOutcome P (fileUrl (locator index id))) as [blob|e].
    + destruct (fst (Crypto.decrypt P (derivedKey id index) blob initialWorld)) as [content|e];
        repeat split.
    + repeat split.
Qed.

(** X13: the button "Back to Form" undoes the display.  On a page that
    shows no content and no error and whose container is not expanded,
    displaying a content and then clicking the button leaves the page as it
    was, but for the display style of the form, which is "block"; for
    crypto-alternative.js this holds for the content it displays with the
    button, which is the content that is not markup. *)
Theorem back_button_restores_form :
  forall content w,
    contentChildren (dom w) = [] -> contentShown (dom w) = false ->
    errorShown (dom w) = false -> containerExpanded (dom w) = false ->
    dom (snd ((Crypto.displayContent content ;; Crypto.backButtonClick) w)) =
      set_formDisplay (Some (str "block")) (dom w) /\
    (Crypto.isHtml content = false ->
     dom (snd ((CryptoAlternative.displayContent content ;;
                CryptoAlternative.backButtonClick) w)) =
       set_formDisplay (Some (str "block")) (dom w)).
Proof.
  intros content w H1 H2 H3 H4. split.
  - unfold bind at 1. rewrite displayContent_run.
    unfold Crypto.backButtonClick, bind, update_dom. cbn [snd dom].
    destruct (dom w). cbn in *. subst. reflexivity.
  - intros Hh. unfold bind at 1. rewrite displayContentAlternative_run.
    unfold CryptoAlternative.backButtonClick, bind, update_dom, displayedDomAlternative.
    rewrite Hh. cbn [snd dom].
    destruct (dom w). cbn in *. subst. reflexivity.
Qed.

Lemma back_button_restores_form_witness :
  dom (snd ((Crypto.displayContent publishedText ;; Crypto.backButtonClick) initialWorld)) =
  set_formDisplay (Some (str "block")) initialDom.
Proof.
  refine (proj1 (back_button_restores_form publishedText initialWorld _ _ _ _));
    reflexivity.
Defined.

(** ** What counts as markup *)

Lemma capitals_not_whiteSpace u : 0x41 <= u <= 0x5A -> isWhiteSpace u = false.
Proof.
  intros [H1 H2].
  assert (G : all_below 0x5B (fun u => negb (0x41 <=? u) || negb (isWhiteSpace u)) = true)
    by (vm_compute; reflexivity).
  pose proof (all_below_spec _ _ G u ltac:(lia)) as H. cbv beta in H.
  apply N.leb_le in H1. rewrite H1 in H. cbn [negb orb] in H.
  apply negb_true_iff in H. exact H.
Qed.

(** A code unit whose lower case is one code unit that is neither white
    space nor "k" is not white space. *)
Lemma lowerUnit_not_whiteSpace u c :
  lowerUnit u = [c] -> isWhiteSpace c = false -> c <> 0x6B -> isWhiteSpace u = false.
Proof.
  unfold lowerUnit. intros E Hc Hk.
  destruct ((0x41 <=? u) && (u <=? 0x5A)) eqn:C.
  - apply andb_true_iff in C. destruct C as [C1 C2].
    apply N.leb_le in C1, C2. apply capitals_not_whiteSpace. lia.
  - destruct (u =? 0x130); [discriminate|].
    destruct (u =? 0x212A).
    + injection E as E. exfalso. apply Hk. symmetry. exact E.
    + injection E as E. subst c. exact Hc.
Qed.

Lemma lowerUnit_cases u :
  (exists c, lowerUnit u = [c]) \/ lowerUnit u = [0x69; 0x307].
Proof.
  unfold lowerUnit. destruct ((0x41 <=? u) && (u <=? 0x5A)); [left; eexists; reflexivity|].
  destruct (u =? 0x130); [right; reflexivity|].
  destruct (u =? 0x212A); left; eexists; reflexivity.
Qed.

(** A prefix without "i" of a text in lower case is the lower case of a
    prefix of the text. *)
Lemma toLowerCase_prefix t :
  ~ In 0x69 t ->
  forall s x, toLowerCase s = t ++ x -> exists p q, s = p ++ q /\ toLowerCase p = t.
Proof.
  induction t as [|c t IH]; intros Hi s x E.
  - exists [], s. split; reflexivity.
  - destruct s as [|u s]; [discriminate|].
    unfold toLowerCase in E. cbn [flat_map app] in E.
    destruct (lowerUnit_cases u) as [[c' Hu]|Hu]; rewrite Hu in E; cbn [app] in E.
    + injection E as E1 E2. subst c'.
      destruct (IH (fun H => Hi (or_intror H)) s x E2) as [p [q [Es Ep]]].
      exists (u :: p), q. split; [cbn [app]; rewrite Es; reflexivity|].
      unfold toLowerCase in *. cbn [flat_map]. rewrite Hu, Ep. reflexivity.
    + injection E as E1 E2. exfalso. apply Hi. left. symmetry. exact E1.
Qed.

Lemma toLowerCase_not_whiteSpace p :
  Forall plainUnit (toLowerCase p) -> Forall (fun u => isWhiteSpace u = false) p.
Proof.
  induction p as [|u p IH]; intros H; [constructor|].
  unfold toLowerCase in H. cbn [flat_map] in H.
  destruct (lowerUnit_cases u) as [[c Hu]|Hu]; rewrite Hu in H; cbn [app] in H.
  - inversion H as [|? ? [H1 [H2 H3]] H4]; subst.
    constructor; [exact (lowerUnit_not_whiteSpace u c Hu H1 H2) | apply IH, H4].
  - inversion H as [|? ? [_ [_ H3]] _]. exfalso. apply H3. reflexivity.
Qed.

(** A text that begins, after white space, with a case variant of a prefix
    of plain code units begins with that prefix once trimmed and in lower
    case. *)
Lemma trimmed_prefix t l p rest :
  t <> [] -> Forall plainUnit t -> whiteSpaceOnly l -> toLowerCase p = t ->
  hasPrefix (toLowerCase (trim (l ++ p ++ rest))) t.
Proof.
  intros Ht Hp Hl Ep.
  assert (W : Forall (fun u => isWhiteSpace u = false) p)
    by (apply toLowerCase_not_whiteSpace; rewrite Ep; exact Hp).
  destruct (exists_last (l := p)) as [p0 [v Ev]].
  { intros ->. apply Ht. symmetry. exact Ep. }
  assert (Hv : isWhiteSpace v = false).
  { rewrite Forall_forall in W. apply W. rewrite Ev. apply in_or_app. right. left. reflexivity. }
  unfold trim. rewrite trimStart_whiteSpace by exact Hl.
  assert (Es : trimStart (p ++ rest) = p ++ rest).
  { destruct p as [|u p1]; [destruct p0; discriminate|].
    inversion W as [|? ? Hu _]; subst. cbn [app trimStart]. rewrite Hu. reflexivity. }
  rewrite Es. rewrite Ev at 1. rewrite <- app_assoc. cbn [app].
  rewrite trimEnd_keeps by exact Hv.
  exists (toLowerCase (trimEnd rest)).
  change (p0 ++ v :: trimEnd rest) with (p0 ++ [v] ++ trimEnd rest).
  rewrite app_assoc, <- Ev. unfold toLowerCase in *. rewrite flat_map_app, Ep. reflexivity.
Qed.

Lemma prefix_of_trimmed t content :
  ~ In 0x69 t -> hasPrefix (toLowerCase (trim content)) t ->
  exists l p rest, content = l ++ p ++ rest /\ whiteSpaceOnly l /\ toLowerCase p = t.
Proof.
  intros Hi [x E].
  destruct (toLowerCase_prefix t Hi _ _ E) as [p [q [Es Ep]]].
  destruct (trimStart_split content) as [l [Hl El]].
  destruct (trimEnd_split (trimStart content)) as [r [_ Er]].
  exists l, p, (q ++ r). split; [|split; assumption].
  rewrite El at 1. f_equal. rewrite Er at 1. fold (trim content). rewrite Es, <- app_assoc.
  reflexivity.
Qed.

(** X14: the test for markup of both handlers accepts exactly the contents
    made of white space, then a spelling in any letter case of "<!doctype"
    or of "<html", then anything: what follows the prefix, white space at
    the end included, has no part in it. *)
Theorem markup_detection :
  forall content,
    Crypto.isHtml content = true <->
    exists l p rest,
      content = l ++ p ++ rest /\ whiteSpaceOnly l /\
      (toLowerCase p = str "<!doctype" \/ toLowerCase p = str "<html").
Proof.
  assert (P1 : Forall plainUnit (str "<!doctype"))
    by (repeat constructor; discriminate).
  assert (P2 : Forall plainUnit (str "<html"))
    by (repeat constructor; discriminate).
  assert (I1 : ~ In 0x69 (str "<!doctype")).
  { intros H. destruct (proj1 (Forall_forall _ _) P1 _ H) as [_ [_ N]]. apply N. reflexivity. }
  assert (I2 : ~ In 0x69 (str "<html")).
  { intros H. destruct (proj1 (Forall_forall _ _) P2 _ H) as [_ [_ N]]. apply N. reflexivity. }
  intros content. rewrite isHtml_isMarkup. unfold isMarkup. split.
  - intros [H|H].
    + destruct (prefix_of_trimmed _ _ I1 H) as [l [p [rest [E [Hl Hp]]]]].
      exists l, p, rest. auto.
    + destruct (prefix_of_trimmed _ _ I2 H) as [l [p [rest [E [Hl Hp]]]]].
      exists l, p, rest. auto.
  - intros [l [p [rest [-> [Hl [Hp|Hp]]]]]].
    + left. apply trimmed_prefix; [discriminate | exact P1 | exact Hl | exact Hp].
    + right. apply trimmed_prefix; [discriminate | exact P2 | exact Hl | exact Hp].
Qed.

(** ** What a run writes to the console *)

Lemma decrypt_console_all P key blob w :
  usableKey key ->
  console (snd (Crypto.decrypt P key blob w)) = console w ++ decryptConsole P key blob.
Proof.
  intros Hk. unfold decryptConsole. destruct (N.ltb_spec (byteLength blob) 12) as [H|H].
  - rewrite decrypt_short by exact H. reflexivity.
  - apply decrypt_console; assumption.
Qed.

(** X15: what a run of the handler of crypto.js writes to the console: the
    file name and the address, which hold the digest only; then, when the
    fetch fails, its error; otherwise the size of the file, the progress of
    the derivation, what [decrypt] writes, and the success or the error of
    [decrypt].  The only texts made from the index and the id are the file
    name and the address. *)
Theorem submit_console :
  forall P form w,
    let index := trim (Crypto.indexNumberValue form) in
    let id := trim (Crypto.idValue form) in
    let filename := locator index id in
    let url := fileUrl filename in
    let key := derivedKey id index in
    console (snd (Crypto.submitHandler P form w)) =
    console w ++
    [ConsoleLog [VStr (str "Generating filename...")];
     ConsoleLog [VStr (str "Filename:"); VStr filename];
     ConsoleLog [VStr (str "Fetching encrypted file...")];
     ConsoleLog [VStr (str "Fetching file from:"); VStr url]] ++
    match fetchOutcome P url with
    | Thrown e => [ConsoleError [VStr (str "Error:"); VErr e]]
    | Returned blob =>
        [ConsoleLog [VStr (str "File fetched, size:"); VNum (byteLength blob);
                     VStr (str "bytes")];
         ConsoleLog [VStr (str "Deriving AES-GCM key with"); VNum 100000;
                     VStr (str "iterations...")];
         ConsoleLog [VStr (str "Key derived successfully")];
         ConsoleLog [VStr (str "Decrypting with AES-GCM...")]] ++
        decryptConsole P key blob ++
        match fst (Crypto.decrypt P key blob initialWorld) with
        | Returned _ => [ConsoleLog [VStr (str "Decryption successful!")]]
        | Thrown e => [ConsoleError [VStr (str "Error:"); VErr e]]
        end
    end.
Proof.
  intros P form w index id filename url key.
  remember (Crypto.submitHandler P form w) as run eqn:Hrun.
  unfold Crypto.submitHandler in Hrun. fold index id in Hrun.
  unfold try_finally, try_catch in Hrun.
  cbn -[str app trim] in Hrun.
  unfold bind at 1 in Hrun. rewrite getEncryptedFilename_run in Hrun.
  cbn -[str app trim] in Hrun. unfold bind at 1 in Hrun. rewrite fetchFile_run in Hrun.
  fold filename url in Hrun.
  destruct (fetchOutcome P url) as [blob|e].
  - cbn -[str app trim] in Hrun. unfold bind at 1 in Hrun. rewrite getKey_run in Hrun.
    fold key in Hrun.
    cbn -[str app trim deriveCalls] in Hrun. unfold bind at 1 in Hrun.
    match type of Hrun with
    | context [Crypto.decrypt P key blob ?w1] =>
        pose proof (decrypt_fst P key blob w1 initialWorld (derivedKey_usable id index)) as Hf;
        pose proof (decrypt_console_all P key blob w1 (derivedKey_usable id index)) as Hc;
        destruct (Crypto.decrypt P key blob w1) as [[content|e] w2]
    end; cbn [fst snd console] in Hf, Hc; rewrite <- Hf.
    + cbn -[str app trim deriveCalls] in Hrun. rewrite displayContent_run in Hrun.
      cbn -[str app trim deriveCalls] in Hrun. rewrite Hc in Hrun. subst run.
      cbn [snd console]. rewrite <- !app_assoc. reflexivity.
    + cbn -[str app trim deriveCalls] in Hrun. rewrite Hc in Hrun. subst run.
      cbn [snd console]. rewrite <- !app_assoc. reflexivity.
  - cbn -[str app trim] in Hrun. subst run. cbn [snd console].
    rewrite <- !app_assoc. reflexivity.
Qed.

(** ** A file that is not there *)

(** X16: when the network answers the request of the handler of crypto.js
    with a status outside 200-299, as it does for an index and id that no
    file was published under, the page shows "Error: Failed to fetch file: ",
    the status and the status text, and no content; the run stops there:
    its requests are the digest and the fetch, and no key is derived. *)
Theorem submit_reports_missing_file :
  forall P form w r,
    let index := trim (Crypto.indexNumberValue form) in
    let id := trim (Crypto.idValue form) in
    let url := fileUrl (locator index id) in
    let w' := snd (Crypto.submitHandler P form w) in
    network P url = Responded r ->
    status r < 200 \/ 299 < status r ->
    errorShown (dom w') = true /\
    errorText (dom w') =
      str "Error: Failed to fetch file: " ++ toStringRadix 10 (status r) ++ str " " ++
      statusText r /\
    contentShown (dom w') = false /\ contentChildren (dom w') = [] /\
    loadingShown (dom w') = false /\ submitDisabled (dom w') = false /\
    calls w' =
      calls w ++ [SubtleDigest (str "SHA-256") (TextEncoder_encode (index ++ str "|" ++ id));
                  Fetch url].
Proof.
  intros P form w r index id url w' Hnet Hst. subst w'.
  destruct (submitHandler_run P form w) as [_ [Hd Hc]]. fold index id url in Hd, Hc.
  assert (E : fetchOutcome P url =
              Thrown (Error (str "Failed to fetch file: " ++ toStringRadix 10 (status r) ++
                             str " " ++ statusText r))).
  { unfold fetchOutcome. rewrite Hnet. unfold ok.
    destruct (N.leb_spec 200 (status r)); destruct (N.leb_spec (status r) 299);
      cbn [andb]; try reflexivity. lia. }
  rewrite Hd, Hc, E. repeat split.
Qed.

Lemma submit_reports_missing_file_witness :
  errorText (dom (snd (Crypto.submitHandler offlinePlatform
                         (Crypto.mkFormValues (str "2020123") (str "987654321"))
                         initialWorld))) =
  str "Error: Failed to fetch file: 404 Not Found".
Proof.
  refine (proj1 (proj2 (submit_reports_missing_file offlinePlatform
                          (Crypto.mkFormValues (str "2020123") (str "987654321"))
                          initialWorld (mkResponse 404 (str "Not Found") (Returned []))
                          _ _))).
  - reflexivity.
  - right. reflexivity.
Defined.
